(** * defi-flow plotting scripts: a shallow embedding

    The repository holds two standalone scripts,
    [scripts/plot_backtest.py] (trajectory pipeline) and
    [scripts/plot_allocations.py] (allocation pipeline).  Each loads an
    artifact, derives a few numeric series and hands them to matplotlib.

    Modelling conventions.
    - Python numbers coming from JSON or from [float(...)] are idealised
      as exact rationals [Q]; rounding and the IEEE special values are
      outside the model.  Python's [/] raises [ZeroDivisionError] on a
      zero divisor and that is kept; numpy's element-wise [/] never
      raises and is the total division of [Q].
    - Exceptions are values of [exn]; a computation that may raise
      returns a [result].
    - What a script prints and the image files it saves are kept in a
      [world] that is threaded through the script's functions, so that
      the artifacts written before an exception stay on disk.  Writing
      a file is taken to succeed: a full disk or a missing directory
      is a matter of the environment, not of the data.
    - A saved image is represented by the derived series handed to the
      charting backend (the figure), not by pixels. *)

From Stdlib Require Import List String Ascii Bool Arith ZArith QArith.
From Stdlib Require Import Qminmax Qround Lia Lqa Permutation.
Import ListNotations.

Set Implicit Arguments.

(** ** The part of the Python runtime the scripts rely on *)

Module Py.

Inductive exn : Type :=
| IndexError
| ZeroDivisionError
| KeyError
| ValueError
| TypeError
| OSError
| OverflowError
| SystemExit (code : Z).

Inductive result (A : Type) : Type :=
| Ok (a : A)
| Raise (e : exn).

Arguments Ok {A} a.
Arguments Raise {A} e.

(** Truth value of a list: non-empty. *)
Definition truthy {A} (l : list A) : bool :=
  match l with [] => false | _ :: _ => true end.

Definition rbind {A B} (r : result A) (k : A -> result B) : result B :=
  match r with
  | Ok a => k a
  | Raise e => Raise e
  end.

(** A comprehension [[f(x) for x in l]] whose body may raise. *)
Fixpoint comprehension {A B} (f : A -> result B) (l : list A)
  : result (list B) :=
  match l with
  | [] => Ok []
  | x :: t =>
      rbind (f x) (fun y =>
      rbind (comprehension f t) (fun ys => Ok (y :: ys)))
  end.

(** A [for] loop over [l] updating a state, whose body may raise. *)
Fixpoint for_each {A S} (body : S -> A -> result S) (l : list A) (s : S)
  : result S :=
  match l with
  | [] => Ok s
  | x :: t => rbind (body s x) (fun s' => for_each body t s')
  end.

(** A [dict]: keys in insertion order, each key once. *)
Section Dict.
Variables (K V : Type) (eqb : K -> K -> bool).

Definition dict : Type := list (K * V).

(** [d[k] = v]: overwrite in place, or append a new key. *)
Fixpoint dict_set (d : dict) (k : K) (v : V) : dict :=
  match d with
  | [] => [(k, v)]
  | (k', v') :: t =>
      if eqb k' k then (k', v) :: t else (k', v') :: dict_set t k v
  end.

Fixpoint dict_find (d : dict) (k : K) : option V :=
  match d with
  | [] => None
  | (k', v') :: t => if eqb k' k then Some v' else dict_find t k
  end.

(** [d[k]] *)
Definition dict_getitem (d : dict) (k : K) : result V :=
  match dict_find d k with
  | Some v => Ok v
  | None => Raise KeyError
  end.

(** [d.get(k, default)] *)
Definition dict_get (d : dict) (k : K) (default : V) : V :=
  match dict_find d k with
  | Some v => v
  | None => default
  end.

Definition keys (d : dict) : list K := map fst d.

(** [k in l] for a list or tuple [l]. *)
Definition contains (l : list K) (k : K) : bool := existsb (eqb k) l.
End Dict.

(** [l[i]] for a list, negative indices counting from the end. *)
Definition getitem {A} (l : list A) (i : Z) : result A :=
  let n := Z.of_nat (List.length l) in
  let j := (if i <? 0 then n + i else i)%Z in
  if (j <? 0)%Z then Raise IndexError
  else match nth_error l (Z.to_nat j) with
       | Some x => Ok x
       | None => Raise IndexError
       end.

(** [x / y] on Python numbers. *)
Definition div (x y : Q) : result Q :=
  if Qeq_bool y 0 then Raise ZeroDivisionError else Ok (x / y).

(** [datetime.fromtimestamp(t, tz=timezone.utc)] on an integer [t],
    as CPython answers on a 64-bit Linux.  A [datetime] holds the
    years 1 to 9999, that is the seconds -62135596800 to 253402300799;
    it is kept here as these epoch seconds.  Outside that span the
    call raises: [ValueError] (year out of range) while [gmtime] can
    still break the time down, [OSError] once [gmtime] fails, and
    [OverflowError] when [t] does not fit a 64-bit [time_t]. *)
Definition datetime_fromtimestamp (t : Z) : result Z :=
  if ((-62135596800 <=? t) && (t <=? 253402300799))%Z then Ok t
  else if ((-67768040609740800 <=? t) && (t <=? 67768036191676799))%Z
  then Raise ValueError
  else if ((-9223372036854775808 <=? t) && (t <=? 9223372036854775807))%Z
  then Raise OSError
  else Raise OverflowError.

(** [pathlib.Path] values, kept symbolic. *)
Inductive path : Type :=
| PathOf (s : string)
| PathJoin (d : path) (name : string)
| PathParent (p : path).

(** One [print] call: fixed text, optionally followed by a path. *)
Inductive line : Type :=
| Text (s : string)
| TextPath (s : string) (p : path).

Section World.
(** [Fig] is the script's notion of a rendered figure. *)
Variable Fig : Type.

Record world : Type := mkWorld {
  stdout : list line;
  files : list (path * Fig)
}.

Definition empty_world : world := mkWorld [] [].

Definition M (A : Type) : Type := world -> result A * world.

Definition ret {A} (a : A) : M A := fun w => (Ok a, w).

Definition bind {A B} (m : M A) (k : A -> M B) : M B :=
  fun w =>
    match m w with
    | (Ok a, w') => k a w'
    | (Raise e, w') => (Raise e, w')
    end.

Definition raise {A} (e : exn) : M A := fun w => (Raise e, w).

Definition lift {A} (r : result A) : M A := fun w => (r, w).

Definition print (l : line) : M unit :=
  fun w => (Ok tt, mkWorld (stdout w ++ [l]) (files w)).

Definition savefig (p : path) (f : Fig) : M unit :=
  fun w => (Ok tt, mkWorld (stdout w) (files w ++ [(p, f)])).
End World.

Arguments ret {Fig A} a.
Arguments raise {Fig A} e.
Arguments lift {Fig A} r.
Arguments print {Fig} l.
Arguments empty_world {Fig}.

Declare Scope py_scope.
Delimit Scope py_scope with py.

Notation "x <- m ;; k" := (bind m (fun x => k))
  (at level 61, m at next level, right associativity) : py_scope.
Notation "m ;; k" := (bind m (fun _ => k))
  (at level 61, right associativity) : py_scope.
Notation "x <~ r ;; k" := (rbind r (fun x => k))
  (at level 61, r at next level, right associativity) : py_scope.

End Py.

Import Py.
Open Scope py_scope.

(** ** The part of numpy the scripts rely on *)

Module Np.

(** Element-wise binary operation on arrays of one shape. *)
Fixpoint zip_with {A B C} (f : A -> B -> C) (a : list A) (b : list B)
  : list C :=
  match a, b with
  | x :: a', y :: b' => f x y :: zip_with f a' b'
  | _, _ => []
  end.

Definition zeros (n : nat) : list Q := repeat 0 n.

Definition add (a b : list Q) : list Q := zip_with Qplus a b.

(** [a / b * 100], element-wise; numpy's division does not raise. *)
Definition div_times (a b : list Q) (c : Q) : list Q :=
  zip_with (fun x y => x / y * c) a b.

(** [np.maximum(a, c)] against a scalar. *)
Definition maximum (a : list Q) (c : Q) : list Q :=
  map (fun x => Qmax x c) a.

Fixpoint insert (x : Q) (l : list Q) : list Q :=
  match l with
  | [] => [x]
  | y :: t => if Qle_bool x y then x :: l else y :: insert x t
  end.

Definition sort (l : list Q) : list Q := fold_right insert [] l.

(** [np.percentile(a, q)] of a one-dimensional array, default
    (linear interpolation) method: the virtual index [q/100 * (n-1)]
    into the sorted data, interpolating between its two neighbours. *)
Definition percentile (a : list Q) (q : Q) : Q :=
  let s := sort a in
  let n := List.length s in
  let vi := q / 100 * (inject_Z (Z.of_nat n) - 1) in
  let lo := Qfloor vi in
  let gamma := vi - inject_Z lo in
  let i_lo := Z.to_nat lo in
  let i_hi := Nat.min (S i_lo) (Nat.pred n) in
  let a_lo := nth i_lo s 0 in
  let a_hi := nth i_hi s 0 in
  a_lo + (a_hi - a_lo) * gamma.

(** Column [j] of a two-dimensional array given as its rows. *)
Definition column (j : nat) (arr : list (list Q)) : list Q :=
  map (fun row => nth j row 0) arr.

(** [arr.shape[1]]. *)
Definition ncols (arr : list (list Q)) : nat :=
  match arr with
  | [] => O
  | row :: _ => List.length row
  end.

(** [np.percentile(arr, q, axis=0)]: one percentile per column. *)
Definition percentile_axis0 (arr : list (list Q)) (q : Q) : list Q :=
  map (fun j => percentile (column j arr) q) (seq 0 (ncols arr)).

End Np.

(** ** scripts/plot_backtest.py *)

Module PlotBacktest.

(** *** Backtest Result, as [json.load] returns it *)

Definition datetime : Type := Z.

Record point : Type := mkPoint {
  timestamp : Z;
  tvl : Q
}.

Record historical_t : Type := mkHistorical {
  label : string;
  trajectory : list point;
  twrr_pct : Q;
  annualized_pct : Q;
  max_drawdown_pct : Q;
  sharpe : Q;
  funding_pnl : Q;
  lending_interest : Q;
  rewards_pnl : Q;
  premium_pnl : Q;
  lp_fees : Q;
  swap_costs : Q;
  net_pnl : Q
}.

(** A simulation; its ["trajectory"] key may be missing
    (the script reads it with [s.get("trajectory", [])]). *)
Record simulation : Type := mkSimulation {
  sim_trajectory : option (list point);
  sim_twrr_pct : Q;
  sim_max_drawdown_pct : Q;
  sim_sharpe : Q
}.

Record monte_carlo_t : Type := mkMonteCarlo {
  n_simulations : Z;
  simulations : list simulation
}.

(** [monte_carlo] is [None] both when the key is absent and when it is
    [null]: [data.get("monte_carlo")] gives [None] in either case. *)
Record backtest : Type := mkBacktest {
  historical : historical_t;
  monte_carlo : option monte_carlo_t
}.

(** *** Figures *)

Record bands : Type := mkBands {
  p5 : list Q;
  p25 : list Q;
  p75 : list Q;
  p95 : list Q
}.

Record trajectory_fig : Type := mkTrajectoryFig {
  tf_bands : option bands;
  tf_dates : list datetime;
  tf_tvls : list Q;
  tf_hline : Q;
  tf_title : string;
  tf_final_tvl : Q;
  tf_pnl_pct : Q;
  tf_annot_x : datetime;
  tf_stats : Q * Q * Q * Q
}.

Record bar : Type := mkBar {
  bar_category : string;
  bar_value : Q;
  bar_color : string;
  bar_text_y : Q
}.

Record pnl_fig : Type := mkPnlFig {
  pf_bars : list bar;
  pf_title : string;
  pf_net_pnl : Q
}.

Record mc_fig : Type := mkMcFig {
  mf_twrrs : list Q;
  mf_twrr_line : Q;
  mf_dds : list Q;
  mf_dd_line : Q;
  mf_sharpes : list Q;
  mf_sharpe_line : Q;
  mf_label : string;
  mf_n_simulations : Z
}.

Inductive figure : Type :=
| FigTrajectory (f : trajectory_fig)
| FigPnl (f : pnl_fig)
| FigMc (f : mc_fig).

Definition world : Type := Py.world figure.
Definition M (A : Type) : Type := Py.M figure A.

(** *** The script's functions *)

Definition ts_to_dates (timestamps : list Z) : result (list datetime) :=
  comprehension datetime_fromtimestamp timestamps.

(** [s.get("trajectory", [])] *)
Definition get_trajectory (s : simulation) : list point :=
  match sim_trajectory s with
  | Some st => st
  | None => []
  end.

(** Lines 38-42: the loop that collects the rows of [sim_matrix]. *)
Definition sim_matrix (sims : list simulation) (n_ticks : nat)
  : list (list Q) :=
  fold_left
    (fun acc s =>
       let st := get_trajectory s in
       if (n_ticks <=? List.length st)%nat
       then acc ++ [map tvl (firstn n_ticks st)]
       else acc)
    sims [].

(** Lines 33-50: the confidence bands, [None] when none is drawn. *)
Definition mc_bands (data : backtest) (tvls : list Q) : option bands :=
  match monte_carlo data with
  | None => None
  | Some mc =>
      if truthy (simulations mc) then
        let sims := simulations mc in
        let n_ticks := List.length tvls in
        let m := sim_matrix sims n_ticks in
        if truthy m then
          Some (mkBands (Np.percentile_axis0 m 5)
                        (Np.percentile_axis0 m 25)
                        (Np.percentile_axis0 m 75)
                        (Np.percentile_axis0 m 95))
        else None
      else None
  end.

Definition plot_trajectory (data : backtest) (out_dir : path) : M unit :=
  let hist := historical data in
  let traj := trajectory hist in
  let timestamps := map timestamp traj in
  let tvls := map tvl traj in
  dates <- lift (ts_to_dates timestamps) ;;
  let mc_fill := mc_bands data tvls in
  hline <- lift (getitem tvls 0) ;;
  final_tvl <- lift (getitem tvls (-1)) ;;
  initial <- lift (getitem tvls 0) ;;
  ratio <- lift (Py.div final_tvl initial) ;;
  let pnl_pct := (ratio - 1) * 100 in
  last_date <- lift (getitem dates (-1)) ;;
  let fig :=
    mkTrajectoryFig mc_fill dates tvls hline (label hist)
      final_tvl pnl_pct last_date
      (twrr_pct hist, annualized_pct hist, max_drawdown_pct hist,
       sharpe hist) in
  let out_path := PathJoin out_dir "trajectory.png" in
  savefig out_path (FigTrajectory fig) ;;
  print (TextPath "  Saved " out_path).

Definition categories : list string :=
  ["Funding"; "Lending"; "Rewards"; "Premium"; "LP Fees"; "Swap Costs"]%string.

(** Lines 102-109. *)
Definition pnl_values (hist : historical_t) : list Q :=
  [ funding_pnl hist;
    lending_interest hist;
    rewards_pnl hist;
    premium_pnl hist;
    lp_fees hist;
    - swap_costs hist ].

Definition ge0 (v : Q) : bool := Qle_bool 0 v.

Definition pnl_color (v : Q) : string :=
  if ge0 v then "#2ecc71"%string else "#e74c3c"%string.

Definition pnl_bars (hist : historical_t) : list bar :=
  let values := pnl_values hist in
  let colors := map pnl_color values in
  Np.zip_with
    (fun '(c, v) col =>
       mkBar c v col (v + (if ge0 v then 5 else - (15))))
    (combine categories values) colors.

Definition plot_pnl_breakdown (data : backtest) (out_dir : path) : M unit :=
  let hist := historical data in
  let fig :=
    mkPnlFig (pnl_bars hist)
      (label hist ++ " - PnL Breakdown")%string (net_pnl hist) in
  let out_path := PathJoin out_dir "pnl_breakdown.png" in
  savefig out_path (FigPnl fig) ;;
  print (TextPath "  Saved " out_path).

Definition plot_mc_distribution (data : backtest) (out_dir : path) : M unit :=
  match monte_carlo data with
  | None => ret tt
  | Some mc =>
      if negb (truthy (simulations mc)) then ret tt
      else
        let sims := simulations mc in
        let hist := historical data in
        let fig :=
          mkMcFig (map sim_twrr_pct sims) (twrr_pct hist)
                  (map sim_max_drawdown_pct sims) (max_drawdown_pct hist)
                  (map sim_sharpe sims) (sharpe hist)
                  (label hist) (n_simulations mc) in
        let out_path := PathJoin out_dir "mc_distributions.png" in
        savefig out_path (FigMc fig) ;;
        print (TextPath "  Saved " out_path)
  end.

Section Main.
(** [load_data]: reading and parsing the JSON file. *)
Variable load_data : string -> result backtest.

Definition main (argv : list string) : M unit :=
  if (Z.of_nat (List.length argv) <? 2)%Z then
    print (Text "Usage: plot_backtest.py <backtest_output.json> [output_dir]") ;;
    raise (SystemExit 1)
  else
    json_path <- lift (getitem argv 1) ;;
    out_dir <-
      (if (2 <? Z.of_nat (List.length argv))%Z
       then (d <- lift (getitem argv 2) ;; ret (PathOf d))
       else ret (PathParent (PathOf json_path))) ;;
    data <- lift (load_data json_path) ;;
    plot_trajectory data out_dir ;;
    plot_pnl_breakdown data out_dir ;;
    plot_mc_distribution data out_dir ;;
    print (Text "  Done.").
End Main.

End PlotBacktest.

(** ** scripts/plot_allocations.py *)

Module PlotAllocations.

Definition datetime : Type := Z.

(** What [csv.reader] yields for a file: one list of fields per line. *)
Definition csv_file : Type := list (list string).

(** A value of a [csv.DictReader] row: a field, [None] for a field
    missing from a short line ([restval]), or the list of surplus
    fields of a long line (stored under the key [None], [restkey]). *)
Inductive cell : Type :=
| CStr (s : string)
| CNone
| CList (l : list string).

Definition key : Type := option string.

Definition key_eqb (a b : key) : bool :=
  match a, b with
  | Some x, Some y => String.eqb x y
  | None, None => true
  | _, _ => false
  end.

Definition row : Type := dict key cell.

(** One row of [csv.DictReader]: [dict(zip(fieldnames, line))], then
    the surplus fields or the missing keys. *)
Definition reader_row (fieldnames line : list string) : row :=
  let d :=
    fold_left (fun d kv => dict_set key_eqb d (Some (fst kv)) (CStr (snd kv)))
              (combine fieldnames line) [] in
  let lf := List.length fieldnames in
  let lr := List.length line in
  if (lf <? lr)%nat then dict_set key_eqb d None (CList (skipn lf line))
  else if (lr <? lf)%nat then
    fold_left (fun d k => dict_set key_eqb d (Some k) CNone)
              (skipn lr fieldnames) d
  else d.

(** [csv.DictReader] over the lines of a file: the first line gives
    the field names, empty lines after it are skipped. *)
Definition dict_reader (f : csv_file) : list row :=
  match f with
  | [] => []
  | fieldnames :: lines =>
      map (reader_row fieldnames) (filter (@truthy string) lines)
  end.

Record layer : Type := mkLayer {
  ly_label : key;
  ly_color : string;
  ly_bottom : list Q;
  ly_top : list Q
}.

Record alloc_fig : Type := mkAllocFig {
  af_title : string;
  af_spot : list datetime * list Q;
  af_perp : list datetime * list Q;
  af_timestamps : list datetime;
  af_values : list layer;
  af_tvl : list Q;
  af_final_tvl : Q;
  af_pnl_pct : Q;
  af_pcts : list layer
}.

Definition world : Type := Py.world alloc_fig.
Definition M (A : Type) : Type := Py.M alloc_fig A.

Definition colors : dict string string :=
  [ ("buy_eth", "#4CAF50"); ("lend_eth", "#4CAF50");
    ("short_eth", "#FF9800"); ("lend_idle", "#9C27B0");
    ("lend_usdc", "#9C27B0") ]%string.

Definition labels : dict string string :=
  [ ("buy_eth", "Spot ETH"); ("lend_eth", "ETH Lending");
    ("short_eth", "Short Perp"); ("lend_idle", "USDC Lending");
    ("lend_usdc", "USDC Lending") ]%string.

Definition order : list string :=
  ["buy_eth"; "lend_eth"; "short_eth"; "lend_idle"; "lend_usdc"]%string.

(** [colors.get(col, "#607D8B")] *)
Definition color_of (col : key) : string :=
  match col with
  | Some c => dict_get String.eqb colors c "#607D8B"%string
  | None => "#607D8B"%string
  end.

(** [labels.get(col, col)] *)
Definition label_of (col : key) : key :=
  match col with
  | Some c =>
      match dict_find String.eqb labels c with
      | Some l => Some l
      | None => col
      end
  | None => col
  end.

(** Line 45. *)
Definition venue_cols_of (row0 : row) : list key :=
  filter (fun k => negb (contains key_eqb
                           [Some "timestamp"%string; Some "tvl"%string] k))
         (keys row0).

(** Lines 89-93. *)
Definition venue_cols_ordered_of (venue_cols : list key) : list key :=
  let init :=
    map (@Some string)
        (filter (fun c => contains key_eqb venue_cols (Some c)) order) in
  fold_left
    (fun acc c => if negb (contains key_eqb acc c) then acc ++ [c] else acc)
    venue_cols init.

(** Lines 96-104. *)
Definition auto_title (title : option string) (venue_cols : list key)
  : string :=
  match title with
  | Some t => t
  | None =>
      let has_lend_eth := contains key_eqb venue_cols (Some "lend_eth"%string) in
      let has_buy_eth := contains key_eqb venue_cols (Some "buy_eth"%string) in
      if has_lend_eth then
        "v2: ETH Lending + Short Perp + USDC Lending  (group-aware rebalance)"%string
      else if has_buy_eth then
        "v1: Spot ETH + Short Perp + USDC Lending  (group-aware rebalance)"%string
      else "Backtest Allocations"%string
  end.

Definition gt0 (x : Q) : bool := negb (Qle_bool x 0).

(** Line 140. *)
Definition pnl_pct_of (final_tvl initial_tvl : Q) : result Q :=
  if gt0 initial_tvl then
    ratio <~ Py.div final_tvl initial_tvl ;;
    Ok ((ratio - 1) * 100)
  else Ok 0.

(** Line 150. *)
Definition tvl_arr_of (tvl : list Q) : list Q := Np.maximum tvl 1.

(** Line 154. *)
Definition pcts_of (tvl_arr vals : list Q) : list Q :=
  Np.div_times vals tvl_arr 100.

(** The stacking loops of panels 2 (lines 125-131, [series] the
    identity) and 3 (lines 151-158, [series] the percentage of TVL):
    one filled layer per venue, from [bottom] to [bottom + series]. *)
Definition stack_step (series : list Q -> list Q)
    (venue_data : dict key (list Q))
    (st : list Q * list layer) (col : key)
  : result (list Q * list layer) :=
  let '(bottom, layers) := st in
  raw <~ dict_getitem key_eqb venue_data col ;;
  let vals := series raw in
  let top := Np.add bottom vals in
  Ok (top, layers ++ [mkLayer (label_of col) (color_of col) bottom top]).

Definition stack (series : list Q -> list Q)
    (venue_data : dict key (list Q)) (cols : list key) (n : nat)
  : result (list Q * list layer) :=
  for_each (stack_step series venue_data) cols (Np.zeros n, []).

Definition list_min (l : list Z) : result Z :=
  match l with
  | [] => Raise ValueError
  | x :: t => Ok (fold_left Z.min t x)
  end.

Definition list_max (l : list Z) : result Z :=
  match l with
  | [] => Raise ValueError
  | x :: t => Ok (fold_left Z.max t x)
  end.

Section Script.
(** The environment: reading a file through [csv.reader], and the
    builtins [float] and [int] on strings ([None]: [ValueError]). *)
Variable read_csv : string -> result csv_file.
Variable float_of_str : string -> option Q.
Variable int_of_str : string -> option Z.

Definition float_ (c : cell) : result Q :=
  match c with
  | CStr s =>
      match float_of_str s with
      | Some q => Ok q
      | None => Raise ValueError
      end
  | _ => Raise TypeError
  end.

Definition int_ (c : cell) : result Z :=
  match c with
  | CStr s =>
      match int_of_str s with
      | Some z => Ok z
      | None => Raise ValueError
      end
  | _ => Raise TypeError
  end.

Definition fromtimestamp (t : Z) : result datetime :=
  datetime_fromtimestamp t.

Definition load_csv (path : string) : result (list row) :=
  f <~ read_csv path ;;
  Ok (dict_reader f).

Definition ts_to_dt (ts : cell) : result datetime :=
  t <~ int_ ts ;;
  fromtimestamp t.

Definition column_of (r : row) (col : key) : result cell :=
  dict_getitem key_eqb r col.

(** Lines 59-64 and 65-70: a reference price feed, filtered to the
    time span of the ticks. *)
Definition load_prices (csv : option string) (price_col : string)
    (ts_min ts_max : Z) : result (list datetime * list Q) :=
  match csv with
  | None => Ok ([], [])
  | Some path =>
      if String.eqb path "" then Ok ([], [])
      else
        rows <~ load_csv path ;;
        for_each
          (fun (st : list datetime * list Q) r =>
             c <~ column_of r (Some "timestamp"%string) ;;
             t <~ int_ c ;;
             if ((ts_min <=? t) && (t <=? ts_max))%Z then
               d <~ fromtimestamp t ;;
               p <~ column_of r (Some price_col) ;;
               v <~ float_ p ;;
               Ok (fst st ++ [d], snd st ++ [v])
             else Ok st)
          rows ([], [])
  end.

(** Lines 48-50. *)
Definition venue_data_of (ticks : list row) (venue_cols : list key)
  : result (dict key (list Q)) :=
  for_each
    (fun venue_data col =>
       vals <~ comprehension
                 (fun r => c <~ column_of r col ;; float_ c) ticks ;;
       Ok (dict_set key_eqb venue_data col vals))
    venue_cols [].

(** Lines 40-167 of [plot]: everything between the empty-data check
    and the saving of the figure. *)
Definition plot_figure (ticks : list row) (spot_csv perp_csv : option string)
    (title : option string) : result alloc_fig :=
  timestamps <~ comprehension
      (fun r => c <~ column_of r (Some "timestamp"%string) ;; ts_to_dt c)
      ticks ;;
  tvl <~ comprehension
      (fun r => c <~ column_of r (Some "tvl"%string) ;; float_ c) ticks ;;
  row0 <~ getitem ticks 0 ;;
  let venue_cols := venue_cols_of row0 in
  venue_data <~ venue_data_of ticks venue_cols ;;
  tick_ts <~ comprehension
      (fun r => c <~ column_of r (Some "timestamp"%string) ;; int_ c)
      ticks ;;
  ts_min <~ list_min tick_ts ;;
  ts_max <~ list_max tick_ts ;;
  spot <~ load_prices spot_csv "price" ts_min ts_max ;;
  perp <~ load_prices perp_csv "mark_price" ts_min ts_max ;;
  let venue_cols_ordered := venue_cols_ordered_of venue_cols in
  let title := auto_title title venue_cols in
  let n := List.length timestamps in
  values <~ stack (fun vals => vals) venue_data venue_cols_ordered n ;;
  final_tvl <~ getitem tvl (-1) ;;
  initial_tvl <~ getitem tvl 0 ;;
  pnl_pct <~ pnl_pct_of final_tvl initial_tvl ;;
  let tvl_arr := tvl_arr_of tvl in
  pcts <~ stack (pcts_of tvl_arr) venue_data venue_cols_ordered n ;;
  Ok (mkAllocFig title spot perp timestamps (snd values) tvl
                 final_tvl pnl_pct (snd pcts)).

Definition plot (tick_csv : string) (spot_csv perp_csv : option string)
    (output : string) (title : option string) : M unit :=
  ticks <- lift (load_csv tick_csv) ;;
  if negb (truthy ticks) then
    print (Text "No tick data found")
  else
    fig <- lift (plot_figure ticks spot_csv perp_csv title) ;;
    savefig (PathOf output) fig ;;
    print (TextPath "Saved: " (PathOf output)).

(** The parsed command line. *)
Record args_t : Type := mkArgs {
  arg_tick_csv : string;
  arg_spot : option string;
  arg_perp : option string;
  arg_output : string;
  arg_title : option string
}.

Definition main (args : args_t) : M unit :=
  plot (arg_tick_csv args) (arg_spot args) (arg_perp args)
       (arg_output args) (arg_title args).
End Script.

End PlotAllocations.

(** ** Reading a stacked panel *)

Module Stacked.
Import PlotAllocations.

(** What a layer adds to the stack at tick [i]: the venue's own value
    (panel 2) or percentage (panel 3). *)
Definition thickness (ly : layer) (i : nat) : Q :=
  nth i (ly_top ly) 0 - nth i (ly_bottom ly) 0.

(** The sum over all venues at tick [i]. *)
Definition total (layers : list layer) (i : nat) : Q :=
  fold_right (fun ly acc => thickness ly i + acc) 0 layers.

(** [float(r[col])], the number a row holds in a column. *)
Definition float_at (float_of_str : string -> option Q) (col : key) (r : row)
  : result Q :=
  c <~ column_of r col ;; float_ float_of_str c.

End Stacked.

(** ** Concrete inputs used to exercise the model *)

Module Samples.
Import PlotBacktest.

(** A decimal reader for a subset of what [int] and [float] accept:
    an optional minus sign, digits, and for [float] an optional
    fractional part. *)
Definition digit (c : ascii) : option Z :=
  let n := nat_of_ascii c in
  if ((48 <=? n) && (n <=? 57))%nat then Some (Z.of_nat (n - 48)) else None.

Fixpoint digits (s : string) (acc : Z) : option Z :=
  match s with
  | EmptyString => Some acc
  | String c t =>
      match digit c with
      | Some d => digits t (10 * acc + d)%Z
      | None => None
      end
  end.

Definition unsigned (s : string) : option Z :=
  match s with
  | EmptyString => None
  | _ => digits s 0
  end.

Definition int_of_decimal (s : string) : option Z :=
  match s with
  | String "-"%char t => option_map Z.opp (unsigned t)
  | _ => unsigned s
  end.

Fixpoint split_dot (s : string) : string * option string :=
  match s with
  | EmptyString => (EmptyString, None)
  | String "."%char t => (EmptyString, Some t)
  | String c t => let '(a, b) := split_dot t in (String c a, b)
  end.

Definition unsigned_float (s : string) : option Q :=
  match split_dot s with
  | (ip, None) => option_map inject_Z (unsigned ip)
  | (ip, Some fp) =>
      match unsigned ip, unsigned fp with
      | Some i, Some f =>
          let scale := Pos.pow 10 (Pos.of_nat (String.length fp)) in
          Some (Qmake (i * Zpos scale + f) scale)
      | _, _ => None
      end
  end.

Definition float_of_decimal (s : string) : option Q :=
  match s with
  | String "-"%char t => option_map Qopp (unsigned_float t)
  | _ => unsigned_float s
  end.

Definition hist_of (traj : list point) : historical_t :=
  mkHistorical "delta-neutral" traj 12.34 25 3.5 1.2
               100 40 10 0 5 30 125.

(** A two-tick history that starts from a portfolio value of zero. *)
Definition zero_start : backtest :=
  mkBacktest (hist_of [mkPoint 0 0; mkPoint 3600 1000]) None.

(** A history without any tick. *)
Definition no_ticks : backtest :=
  mkBacktest (hist_of []) None.

(** A history whose second timestamp lies beyond the year 9999. *)
Definition far_future : backtest :=
  mkBacktest (hist_of [mkPoint 0 1000; mkPoint 1000000000000 1500]) None.

(** A three-tick history with three simulations, one of them too
    short and one without a trajectory. *)
Definition with_mc : backtest :=
  mkBacktest
    (hist_of [mkPoint 0 1000; mkPoint 3600 1010; mkPoint 7200 1020])
    (Some (mkMonteCarlo 3
       [ mkSimulation
           (Some [mkPoint 0 1000; mkPoint 1 1100; mkPoint 2 900;
                  mkPoint 3 5000]) 1 2 3;
         mkSimulation (Some [mkPoint 0 1000; mkPoint 1 1200]) 4 5 6;
         mkSimulation None 7 8 9;
         mkSimulation
           (Some [mkPoint 0 1000; mkPoint 1 1300; mkPoint 2 1100]) 1 1 1 ])).

Definition plain : backtest :=
  mkBacktest
    (hist_of [mkPoint 0 1000; mkPoint 3600 1010; mkPoint 7200 1020]) None.

Definition empty_mc : backtest :=
  mkBacktest
    (hist_of [mkPoint 0 1000; mkPoint 3600 1010; mkPoint 7200 1020])
    (Some (mkMonteCarlo 0 [])).

(** Tick files for the allocation script. *)
Definition header : list string :=
  ["timestamp"; "tvl"; "lend_usdc"; "pendle"; "buy_eth"; "short_eth"]%string.

Definition ticks_file : PlotAllocations.csv_file :=
  [ header;
    ["100"; "1000"; "400"; "100"; "300"; "200"];
    ["200"; "0.5"; "0.2"; "0.1"; "0.1"; "0.1"];
    ["300"; "-4"; "2"; "1"; "3"; "4"] ]%string.

Definition header_only : PlotAllocations.csv_file := [header].

Definition fs (path : string) : result PlotAllocations.csv_file :=
  if String.eqb path "ticks.csv" then Ok ticks_file
  else if String.eqb path "empty.csv" then Ok header_only
  else Raise OSError.

End Samples.

(** ** Further vocabulary and inputs *)

Module Terms.
Import PlotAllocations.

(** [sorted s]: the entries of [s] do not decrease. *)
Definition sorted (s : list Q) : Prop :=
  forall i j, (i <= j)%nat -> (j < List.length s)%nat -> nth i s 0 <= nth j s 0.

(** The interpolation step of [Np.percentile] on sorted data [s] at
    the virtual index [v]. *)
Definition lerp_at (s : list Q) (v : Q) : Q :=
  let n := List.length s in
  let lo := Qfloor v in
  let gamma := v - inject_Z lo in
  let i_lo := Z.to_nat lo in
  let i_hi := Nat.min (S i_lo) (Nat.pred n) in
  nth i_lo s 0 + (nth i_hi s 0 - nth i_lo s 0) * gamma.

(** [raises_only P r]: if [r] is an exception, it is one of [P]. *)
Definition raises_only {A} (P : exn -> Prop) (r : result A) : Prop :=
  match r with
  | Ok _ => True
  | Raise e => P e
  end.

(** The exceptions the derivation of the allocation figure can raise:
    those of its own lookups and conversions, those of
    [datetime.fromtimestamp], and those of reading a file. *)
Definition derivation_error (read_csv : string -> result csv_file) (e : exn)
  : Prop :=
  e = KeyError \/ e = ValueError \/ e = TypeError \/
  e = OSError \/ e = OverflowError \/
  exists p, read_csv p = Raise e.

(** [chained b layers]: the first layer rests on [b] and every other
    layer on the top of the layer before it. *)
Fixpoint chained (b : list Q) (layers : list layer) : Prop :=
  match layers with
  | [] => True
  | ly :: t => ly_bottom ly = b /\ chained (ly_top ly) t
  end.

(** A spot price feed reaching beyond the span of [Samples.ticks_file];
    its last line has no readable price. *)
Definition spot_file : csv_file :=
  [ ["timestamp"; "price"]; ["50"; "1999"]; ["150"; "2000"];
    ["300"; "2100"]; ["400"; "n/a"] ]%string.

Definition fs_with_spot (path : string) : result csv_file :=
  if String.eqb path "spot.csv" then Ok spot_file else Samples.fs path.

(** A tick file whose first TVL is zero. *)
Definition zero_ticks_file : csv_file :=
  [ ["timestamp"; "tvl"; "lend_usdc"]; ["1"; "0"; "0"]; ["2"; "5"; "5"] ]%string.

End Terms.

(** * Properties *)

(** ** Runtime lemmas *)

Module PyFacts.

Lemma getitem_nil {A} (i : Z) : getitem (@nil A) i = Raise IndexError.
Proof.
  unfold getitem; cbn [List.length Z.of_nat].
  destruct (i <? 0)%Z eqn:Hi.
  - assert (Hj : (0 + i <? 0)%Z = true) by (apply Z.ltb_lt in Hi; apply Z.ltb_lt; lia).
    now rewrite Hj.
  - destruct (Z.to_nat i); now destruct (i <? 0)%Z.
Qed.

Lemma getitem_first {A} (x : A) (l : list A) : getitem (x :: l) 0 = Ok x.
Proof. reflexivity. Qed.

Lemma getitem_last {A} (l : list A) (d : A) :
  l <> [] -> getitem l (-1) = Ok (last l d).
Proof.
  intros Hl. unfold getitem.
  destruct (exists_last Hl) as [l' [x ->]].
  rewrite last_last, length_app; cbn [List.length].
  change (-1 <? 0)%Z with true; cbv iota.
  assert (Hn : (Z.of_nat (List.length l' + 1) + -1)%Z = Z.of_nat (List.length l'))
    by lia.
  rewrite Hn.
  assert (Hneg : (Z.of_nat (List.length l') <? 0)%Z = false)
    by (apply Z.ltb_ge; lia).
  rewrite Hneg, Nat2Z.id, nth_error_app2 by lia.
  now rewrite Nat.sub_diag.
Qed.

Lemma getitem_first_ok {A} (l : list A) (x : A) :
  getitem l 0 = Ok x -> exists t, l = x :: t.
Proof.
  destruct l as [|y t]; [now rewrite getitem_nil|].
  rewrite getitem_first. intros [= ->]. now exists t.
Qed.

Lemma div_nonzero (x y : Q) : ~ y == 0 -> Py.div x y = Ok (x / y).
Proof.
  intros Hy. unfold Py.div.
  destruct (Qeq_bool y 0) eqn:E; [|reflexivity].
  apply Qeq_bool_iff in E. contradiction.
Qed.

Lemma div_zero (x y : Q) : y == 0 -> Py.div x y = Raise ZeroDivisionError.
Proof.
  intros Hy. unfold Py.div.
  apply Qeq_bool_iff in Hy. now rewrite Hy.
Qed.

Lemma comprehension_length {A B} (f : A -> result B) (l : list A) (r : list B) :
  comprehension f l = Ok r -> List.length r = List.length l.
Proof.
  revert r; induction l as [|x t IH]; intros r; cbn.
  - now intros [= <-].
  - destruct (f x) as [y|e]; cbn; [|discriminate].
    destruct (comprehension f t) as [ys|e]; cbn; [|discriminate].
    intros [= <-]. cbn. now rewrite (IH ys).
Qed.

Lemma comprehension_nth {A B} (f : A -> result B) (l : list A) (r : list B)
    (i : nat) (x : A) :
  comprehension f l = Ok r -> nth_error l i = Some x ->
  exists y, f x = Ok y /\ nth_error r i = Some y.
Proof.
  revert r i; induction l as [|a t IH]; intros r i; cbn.
  - intros _ H. now destruct i.
  - destruct (f a) as [y|e] eqn:Ha; cbn; [|discriminate].
    destruct (comprehension f t) as [ys|e]; cbn; [|discriminate].
    intros [= <-]. destruct i as [|i]; cbn.
    + intros [= <-]. now exists y.
    + intros H. now apply (IH ys).
Qed.

Lemma comprehension_raise {A B} (f : A -> result B) (l : list A) (e : exn) :
  comprehension f l = Raise e -> exists x, In x l /\ f x = Raise e.
Proof.
  induction l as [|a t IH]; cbn; [discriminate|].
  destruct (f a) as [y|e'] eqn:Ha; cbn.
  - destruct (comprehension f t) as [ys|e']; cbn; [discriminate|].
    intros [= ->]. destruct (IH eq_refl) as (x & Hx & Hf).
    exists x. split; [now right | exact Hf].
  - intros [= ->]. exists a. split; [now left | exact Ha].
Qed.

Lemma datetime_fromtimestamp_ok (t d : Z) :
  datetime_fromtimestamp t = Ok d -> d = t.
Proof.
  unfold datetime_fromtimestamp.
  destruct ((-62135596800 <=? t) && (t <=? 253402300799))%Z;
    [now intros [= <-]|].
  destruct ((-67768040609740800 <=? t) && (t <=? 67768036191676799))%Z;
    [discriminate|].
  destruct ((-9223372036854775808 <=? t) && (t <=? 9223372036854775807))%Z;
    discriminate.
Qed.

Lemma datetime_fromtimestamp_error (t : Z) (e : exn) :
  datetime_fromtimestamp t = Raise e ->
  e = ValueError \/ e = OSError \/ e = OverflowError.
Proof.
  unfold datetime_fromtimestamp.
  destruct ((-62135596800 <=? t) && (t <=? 253402300799))%Z; [discriminate|].
  destruct ((-67768040609740800 <=? t) && (t <=? 67768036191676799))%Z;
    [intros [= <-]; auto|].
  destruct ((-9223372036854775808 <=? t) && (t <=? 9223372036854775807))%Z;
    intros [= <-]; auto.
Qed.

End PyFacts.

(** ** Trajectory pipeline *)

Module BacktestFacts.
Import PyFacts PlotBacktest.

(** The dates that come out of [ts_to_dates] are the timestamps. *)
Lemma ts_to_dates_ok (timestamps : list Z) (dates : list datetime) :
  ts_to_dates timestamps = Ok dates -> dates = timestamps.
Proof.
  unfold ts_to_dates. revert dates.
  induction timestamps as [|t l IH]; intros dates; cbn.
  - now intros [= <-].
  - destruct (datetime_fromtimestamp t) as [d|e] eqn:E; cbn; [|discriminate].
    destruct (comprehension datetime_fromtimestamp l) as [ds|e]; cbn;
      [|discriminate].
    intros [= <-]. apply datetime_fromtimestamp_ok in E.
    now rewrite E, (IH ds eq_refl).
Qed.

(** [ts_to_dates] raises what [datetime.fromtimestamp] raises. *)
Lemma ts_to_dates_error (timestamps : list Z) (e : exn) :
  ts_to_dates timestamps = Raise e ->
  e = ValueError \/ e = OSError \/ e = OverflowError.
Proof.
  intros H. apply comprehension_raise in H. destruct H as (t & _ & H).
  now apply datetime_fromtimestamp_error in H.
Qed.

(** A timestamp that is no date stops [plot_trajectory] at once. *)
Lemma plot_trajectory_bad_date (data : backtest) (out_dir : path) (w : world)
    (e : exn) :
  ts_to_dates (map timestamp (trajectory (historical data))) = Raise e ->
  plot_trajectory data out_dir w = (Raise e, w).
Proof.
  intros Hd. unfold plot_trajectory, bind, lift. now rewrite Hd.
Qed.

(** With a non-empty history of convertible timestamps whose first
    value is not zero, [plot_trajectory] saves [trajectory.png] and
    reports it. *)
Lemma plot_trajectory_ok (data : backtest) (out_dir : path) (w : world)
    (p0 : point) (rest : list point) (dates : list datetime) :
  trajectory (historical data) = p0 :: rest ->
  ts_to_dates (map timestamp (trajectory (historical data))) = Ok dates ->
  ~ tvl p0 == 0 ->
  exists fig,
    plot_trajectory data out_dir w =
      (Ok tt,
       mkWorld (stdout w ++ [TextPath "  Saved " (PathJoin out_dir "trajectory.png")])
               (files w ++ [(PathJoin out_dir "trajectory.png",
                             FigTrajectory fig)]))
    /\ tf_bands fig = mc_bands data (map tvl (trajectory (historical data)))
    /\ tf_final_tvl fig = last (map tvl (trajectory (historical data))) 0
    /\ tf_pnl_pct fig = (tf_final_tvl fig / tvl p0 - 1) * 100.
Proof.
  intros Ht Hd Hnz.
  assert (Hne : dates <> []).
  { rewrite (ts_to_dates_ok _ Hd), Ht. discriminate. }
  unfold plot_trajectory, bind, lift.
  rewrite Hd, Ht. cbn [map].
  rewrite !getitem_first.
  rewrite (@getitem_last _ _ 0) by discriminate.
  rewrite div_nonzero by assumption.
  rewrite (@getitem_last _ _ 0%Z) by assumption.
  unfold savefig, print; cbn [stdout files].
  eexists. split; [reflexivity|].
  cbn [tf_bands tf_final_tvl tf_pnl_pct]. repeat split.
Qed.

(** With an empty history it stops at [tvls[0]], before saving. *)
Lemma plot_trajectory_empty (data : backtest) (out_dir : path) (w : world) :
  trajectory (historical data) = [] ->
  plot_trajectory data out_dir w = (Raise IndexError, w).
Proof.
  intros Ht. unfold plot_trajectory, bind, lift. rewrite Ht. cbn [map].
  now rewrite getitem_nil.
Qed.

(** With a first value of zero it stops at the division, before saving. *)
Lemma plot_trajectory_zero (data : backtest) (out_dir : path) (w : world)
    (p0 : point) (rest : list point) (dates : list datetime) :
  trajectory (historical data) = p0 :: rest ->
  ts_to_dates (map timestamp (trajectory (historical data))) = Ok dates ->
  tvl p0 == 0 ->
  plot_trajectory data out_dir w = (Raise ZeroDivisionError, w).
Proof.
  intros Ht Hd Hz.
  unfold plot_trajectory, bind, lift. rewrite Hd, Ht. cbn [map].
  rewrite !getitem_first.
  rewrite (@getitem_last _ _ 0) by discriminate.
  now rewrite div_zero.
Qed.

(** [plot_pnl_breakdown] cannot raise. *)
Lemma plot_pnl_breakdown_ok (data : backtest) (out_dir : path) (w : world) :
  plot_pnl_breakdown data out_dir w =
    (Ok tt,
     mkWorld (stdout w ++ [TextPath "  Saved " (PathJoin out_dir "pnl_breakdown.png")])
             (files w ++
                [(PathJoin out_dir "pnl_breakdown.png",
                  FigPnl (mkPnlFig (pnl_bars (historical data))
                            (label (historical data) ++ " - PnL Breakdown")
                            (net_pnl (historical data))))])).
Proof. reflexivity. Qed.

Lemma plot_mc_distribution_skips (data : backtest) (out_dir : path) (w : world) :
  match monte_carlo data with
  | None => True
  | Some mc => simulations mc = []
  end ->
  plot_mc_distribution data out_dir w = (Ok tt, w).
Proof.
  unfold plot_mc_distribution.
  destruct (monte_carlo data) as [mc|]; [|reflexivity].
  now intros ->.
Qed.

Lemma mc_bands_skips (data : backtest) (tvls : list Q) :
  match monte_carlo data with
  | None => True
  | Some mc => simulations mc = []
  end ->
  mc_bands data tvls = None.
Proof.
  unfold mc_bands.
  destruct (monte_carlo data) as [mc|]; [|reflexivity].
  now intros ->.
Qed.

End BacktestFacts.

Module BacktestClaims.
Import PyFacts PlotBacktest BacktestFacts.

(** C1 (the trajectory side).  The percentage return of the final over
    the initial portfolio value is meant to be guarded against a
    non-positive initial value.  [plot_trajectory] has no such guard:
    on a history that starts at zero it raises [ZeroDivisionError] at
    the division and leaves no artifact behind. *)
Theorem plot_trajectory_zero_initial_raises :
  plot_trajectory Samples.zero_start (PathOf "out") empty_world
  = (Raise ZeroDivisionError, empty_world).
Proof. reflexivity. Qed.

(** [main] from the argument vector on: the three plots in a row. *)
Lemma main_runs (load_data : string -> result backtest)
    (prog json : string) (rest : list string) (data : backtest) (w : world) :
  load_data json = Ok data ->
  main load_data (prog :: json :: rest) w =
    let out_dir :=
      match rest with
      | [] => PathParent (PathOf json)
      | d :: _ => PathOf d
      end in
    (plot_trajectory data out_dir ;;
     plot_pnl_breakdown data out_dir ;;
     plot_mc_distribution data out_dir ;;
     print (Text "  Done.")) w.
Proof.
  intros Hload. unfold main.
  assert (Hlen : (Z.of_nat (List.length (prog :: json :: rest)) <? 2)%Z = false).
  { apply Z.ltb_ge. cbn [List.length]. lia. }
  rewrite Hlen.
  assert (H1 : getitem (prog :: json :: rest) 1 = Ok json) by reflexivity.
  rewrite H1.
  destruct rest as [|d rest'].
  - unfold bind at 1 2 3, lift, ret.
    change (2 <? Z.of_nat (List.length [prog; json]))%Z with false.
    cbv iota beta. now rewrite Hload.
  - assert (Hlen2 : (2 <? Z.of_nat (List.length (prog :: json :: d :: rest')))%Z = true).
    { apply Z.ltb_lt. cbn [List.length]. lia. }
    rewrite Hlen2.
    assert (H2 : getitem (prog :: json :: d :: rest') 2 = Ok d) by reflexivity.
    rewrite H2.
    unfold bind at 1 2 3 4, lift, ret.
    cbv iota beta. now rewrite Hload.
Qed.




(** C7.  The bars of the PnL chart: five categories as stored, and
    swap costs, stored as a positive cost, with the sign flipped. *)
Theorem pnl_bars_flip_swap_costs (data : backtest) (out_dir : path) (w : world) :
  exists fig,
    plot_pnl_breakdown data out_dir w =
      (Ok tt,
       mkWorld
         (stdout w ++ [TextPath "  Saved " (PathJoin out_dir "pnl_breakdown.png")])
         (files w ++ [(PathJoin out_dir "pnl_breakdown.png", FigPnl fig)]))
    /\ map (fun b => (bar_category b, bar_value b)) (pf_bars fig) =
       (let hist := historical data in
        [ ("Funding", funding_pnl hist);
          ("Lending", lending_interest hist);
          ("Rewards", rewards_pnl hist);
          ("Premium", premium_pnl hist);
          ("LP Fees", lp_fees hist);
          ("Swap Costs", - swap_costs hist) ]%string).
Proof.
  eexists. split; [apply plot_pnl_breakdown_ok|]. reflexivity.
Qed.

(** The bands are the only place where [plot_trajectory] looks at the
    Monte Carlo data. *)
Lemma plot_trajectory_bands_only (d1 d2 : backtest) (out_dir : path) (w : world) :
  historical d1 = historical d2 ->
  mc_bands d1 (map tvl (trajectory (historical d1))) =
  mc_bands d2 (map tvl (trajectory (historical d2))) ->
  plot_trajectory d1 out_dir w = plot_trajectory d2 out_dir w.
Proof.
  intros Hh Hb. unfold plot_trajectory. rewrite Hb, Hh. reflexivity.
Qed.

(** C9.  A [monte_carlo] object whose [simulations] list is empty is
    handled like an absent one: [plot_mc_distribution] returns
    normally without writing or printing, no band is computed, and
    each plotting function, hence the whole pipeline, behaves as on
    the same input without [monte_carlo]. *)
Theorem empty_simulations_like_absent (data : backtest) (mc : monte_carlo_t)
    (out_dir : path) (w : world) :
  monte_carlo data = Some mc ->
  simulations mc = [] ->
  let bare := mkBacktest (historical data) None in
  plot_mc_distribution data out_dir w = (Ok tt, w)
  /\ mc_bands data (map tvl (trajectory (historical data))) = None
  /\ plot_trajectory data out_dir w = plot_trajectory bare out_dir w
  /\ plot_pnl_breakdown data out_dir w = plot_pnl_breakdown bare out_dir w
  /\ plot_mc_distribution data out_dir w = plot_mc_distribution bare out_dir w
  /\ forall prog json rest,
       main (fun _ => Ok data) (prog :: json :: rest) w =
       main (fun _ => Ok bare) (prog :: json :: rest) w.
Proof.
  intros Hmc Hs bare.
  assert (Hskip : match monte_carlo data with
                  | None => True
                  | Some mc => simulations mc = []
                  end) by now rewrite Hmc.
  assert (Hb : mc_bands data (map tvl (trajectory (historical data))) = None)
    by now apply mc_bands_skips.
  assert (Ht : forall o v, plot_trajectory data o v = plot_trajectory bare o v).
  { intros o v. apply plot_trajectory_bands_only; [reflexivity|].
    now rewrite Hb. }
  assert (Hd : forall o v, plot_mc_distribution data o v = plot_mc_distribution bare o v).
  { intros o v. now rewrite (@plot_mc_distribution_skips data). }
  split; [now apply plot_mc_distribution_skips|].
  split; [exact Hb|].
  split; [apply Ht|].
  split; [reflexivity|].
  split; [apply Hd|].
  intros prog json rest.
  rewrite (@main_runs (fun _ => Ok data) prog json rest data w eq_refl).
  rewrite (@main_runs (fun _ => Ok bare) prog json rest bare w eq_refl).
  cbv zeta. unfold bind.
  rewrite Ht.
  destruct (plot_trajectory bare _ w) as [[[]|e] w1]; [|reflexivity].
  rewrite !plot_pnl_breakdown_ok. rewrite Hd. reflexivity.
Qed.

Lemma empty_simulations_like_absent_witness :
  plot_mc_distribution Samples.empty_mc (PathOf "out") empty_world
    = (Ok tt, empty_world)
  /\ mc_bands Samples.empty_mc
       (map tvl (trajectory (historical Samples.empty_mc))) = None.
Proof.
  destruct (@empty_simulations_like_absent Samples.empty_mc
              (mkMonteCarlo 0 []) (PathOf "out") empty_world
              eq_refl eq_refl) as (H1 & H2 & _).
  split; [exact H1 | exact H2].
Defined.

(** C10.  [plot_trajectory] requires a non-empty history: it raises
    [IndexError] exactly when the trajectory is empty, and does so
    before anything is saved or printed. *)
Theorem plot_trajectory_needs_ticks (data : backtest) (out_dir : path) (w : world) :
  (fst (plot_trajectory data out_dir w) = Raise IndexError
   <-> trajectory (historical data) = [])
  /\ (trajectory (historical data) = [] ->
      snd (plot_trajectory data out_dir w) = w).
Proof.
  split.
  - split.
    + intros Hr. destruct (trajectory (historical data)) as [|p0 tl] eqn:Ht;
        [reflexivity|].
      destruct (ts_to_dates (map timestamp (p0 :: tl))) as [dates|e] eqn:Hd.
      * rewrite <- Ht in Hd.
        destruct (Qeq_dec (tvl p0) 0) as [Hz|Hnz].
        -- rewrite (@plot_trajectory_zero data out_dir w p0 tl dates Ht Hd Hz)
             in Hr.
           discriminate Hr.
        -- destruct (@plot_trajectory_ok data out_dir w p0 tl dates Ht Hd Hnz)
             as (fig & Hrun & _).
           rewrite Hrun in Hr. discriminate Hr.
      * rewrite <- Ht in Hd.
        rewrite (@plot_trajectory_bad_date data out_dir w e Hd) in Hr.
        cbn [fst] in Hr. injection Hr as ->.
        apply ts_to_dates_error in Hd.
        destruct Hd as [Hd|[Hd|Hd]]; discriminate Hd.
    + intros Ht. now rewrite plot_trajectory_empty.
  - intros Ht. now rewrite plot_trajectory_empty.
Qed.

Lemma plot_trajectory_needs_ticks_witness :
  fst (plot_trajectory Samples.no_ticks (PathOf "out") empty_world)
    = Raise IndexError
  /\ snd (plot_trajectory Samples.no_ticks (PathOf "out") empty_world)
    = empty_world.
Proof.
  destruct (plot_trajectory_needs_ticks Samples.no_ticks (PathOf "out")
              empty_world) as [[_ H1] H2].
  split; [apply H1 | apply H2]; reflexivity.
Defined.

(** The loop of lines 38-42 keeps, in order, the simulations that are
    long enough, each cut to [n_ticks] values. *)
Lemma sim_matrix_filter (sims : list simulation) (n_ticks : nat) :
  sim_matrix sims n_ticks =
  map (fun s => map tvl (firstn n_ticks (get_trajectory s)))
      (filter (fun s => (n_ticks <=? List.length (get_trajectory s))%nat) sims).
Proof.
  unfold sim_matrix.
  enough (H : forall acc,
    fold_left
      (fun acc s =>
         let st := get_trajectory s in
         if (n_ticks <=? List.length st)%nat
         then acc ++ [map tvl (firstn n_ticks st)] else acc) sims acc
    = acc ++ map (fun s => map tvl (firstn n_ticks (get_trajectory s)))
        (filter (fun s => (n_ticks <=? List.length (get_trajectory s))%nat) sims))
    by apply (H []).
  induction sims as [|s t IH]; intros acc; cbn [fold_left filter map].
  - now rewrite app_nil_r.
  - cbv zeta. rewrite IH.
    destruct (n_ticks <=? List.length (get_trajectory s))%nat; [|reflexivity].
    cbn [map]. now rewrite <- app_assoc.
Qed.

Lemma ncols_sim_matrix (sims : list simulation) (n_ticks : nat) :
  sim_matrix sims n_ticks <> [] -> Np.ncols (sim_matrix sims n_ticks) = n_ticks.
Proof.
  rewrite sim_matrix_filter.
  destruct (filter _ sims) as [|s q] eqn:Hf; [now intros []|].
  intros _. cbn [map Np.ncols].
  assert (Hin : In s (filter (fun s => (n_ticks <=? List.length (get_trajectory s))%nat) sims))
    by (rewrite Hf; now left).
  apply filter_In in Hin. destruct Hin as [_ Hq].
  apply Nat.leb_le in Hq.
  rewrite length_map, length_firstn. lia.
Qed.

Lemma percentile_axis0_length (arr : list (list Q)) (q : Q) :
  List.length (Np.percentile_axis0 arr q) = Np.ncols arr.
Proof. unfold Np.percentile_axis0. now rewrite length_map, length_seq. Qed.

Lemma percentile_axis0_nth (arr : list (list Q)) (q : Q) (i : nat) :
  (i < Np.ncols arr)%nat ->
  nth i (Np.percentile_axis0 arr q) 0 = Np.percentile (Np.column i arr) q.
Proof.
  intros Hi. unfold Np.percentile_axis0.
  rewrite (nth_indep _ 0 (Np.percentile (Np.column 0%nat arr) q))
    by now rewrite length_map, length_seq.
  rewrite (map_nth (fun j => Np.percentile (Np.column j arr) q)).
  now rewrite seq_nth.
Qed.

Lemma column_sim_matrix (sims : list simulation) (n_ticks i : nat) :
  (i < n_ticks)%nat ->
  Np.column i (sim_matrix sims n_ticks) =
  map (fun s => nth i (map tvl (get_trajectory s)) 0)
      (filter (fun s => (n_ticks <=? List.length (get_trajectory s))%nat) sims).
Proof.
  intros Hi. rewrite sim_matrix_filter. unfold Np.column.
  rewrite map_map. apply map_ext. intros s.
  rewrite <- firstn_map, nth_firstn.
  apply Nat.ltb_lt in Hi. now rewrite Hi.
Qed.

(** C2.  With Monte Carlo data present, the four percentile bands are
    taken, tick index by tick index, over exactly the simulations
    whose trajectory has at least as many ticks as the history (only
    their first [n] ticks are read); when no simulation qualifies no
    band is produced, and [plot_trajectory] then behaves as it does
    without Monte Carlo data. *)
Theorem mc_bands_over_long_enough_sims (data : backtest) (mc : monte_carlo_t) :
  monte_carlo data = Some mc ->
  let tvls := map tvl (trajectory (historical data)) in
  let n := List.length tvls in
  let qual :=
    filter (fun s => (n <=? List.length (get_trajectory s))%nat)
           (simulations mc) in
  let tick (i : nat) (s : simulation) := nth i (map tvl (get_trajectory s)) 0 in
  match mc_bands data tvls with
  | None =>
      qual = [] /\
      forall out_dir w,
        plot_trajectory data out_dir w =
        plot_trajectory (mkBacktest (historical data) None) out_dir w
  | Some b =>
      qual <> [] /\
      List.length (p5 b) = n /\ List.length (p25 b) = n /\
      List.length (p75 b) = n /\ List.length (p95 b) = n /\
      forall i, (i < n)%nat ->
        nth i (p5 b) 0 = Np.percentile (map (tick i) qual) 5 /\
        nth i (p25 b) 0 = Np.percentile (map (tick i) qual) 25 /\
        nth i (p75 b) 0 = Np.percentile (map (tick i) qual) 75 /\
        nth i (p95 b) 0 = Np.percentile (map (tick i) qual) 95
  end.
Proof.
  intros Hmc tvls n qual tick.
  assert (Hnone : qual = [] -> mc_bands data tvls = None).
  { intros Hq. unfold mc_bands. rewrite Hmc.
    destruct (truthy (simulations mc)); [|reflexivity].
    fold n. rewrite sim_matrix_filter. fold qual. now rewrite Hq. }
  destruct qual as [|s0 q0] eqn:Hq.
  - rewrite Hnone by reflexivity. split; [reflexivity|].
    intros out_dir w. apply plot_trajectory_bands_only; [reflexivity|].
    fold tvls. now rewrite Hnone.
  - assert (Hsims : truthy (simulations mc) = true).
    { destruct (simulations mc); [discriminate Hq | reflexivity]. }
    assert (Hm : sim_matrix (simulations mc) n <> []).
    { rewrite sim_matrix_filter. fold qual. rewrite Hq. discriminate. }
    pose proof (@ncols_sim_matrix (simulations mc) n Hm) as Hc.
    assert (Htm : truthy (sim_matrix (simulations mc) n) = true).
    { destruct (sim_matrix (simulations mc) n); [now elim Hm | reflexivity]. }
    unfold mc_bands. rewrite Hmc, Hsims. fold n. rewrite Htm.
    cbn [p5 p25 p75 p95].
    rewrite !percentile_axis0_length, Hc.
    split; [discriminate|].
    repeat (split; [reflexivity|]).
    intros i Hi.
    rewrite !percentile_axis0_nth by now rewrite Hc.
    rewrite (@column_sim_matrix (simulations mc) n i Hi).
    fold qual. rewrite Hq. repeat split.
Qed.

Lemma mc_bands_over_long_enough_sims_witness :
  exists b,
    mc_bands Samples.with_mc
      (map tvl (trajectory (historical Samples.with_mc))) = Some b
    /\ nth 1 (p5 b) 0 = Np.percentile [1100; 1300] 5
    /\ nth 2 (p95 b) 0 = Np.percentile [900; 1100] 95.
Proof.
  pose proof (@mc_bands_over_long_enough_sims Samples.with_mc _ eq_refl) as H.
  cbv zeta in H.
  destruct (mc_bands Samples.with_mc
              (map tvl (trajectory (historical Samples.with_mc))))
    as [b|] eqn:E.
  - exists b. split; [reflexivity|].
    destruct H as (_ & _ & _ & _ & _ & H).
    split.
    + apply (H 1%nat). cbn. lia.
    + apply (H 2%nat). cbn. lia.
  - destruct H as [H _]. discriminate H.
Defined.

End BacktestClaims.

(** ** Allocation pipeline *)

Module AllocationFacts.
Import PyFacts PlotAllocations Stacked.

Lemma key_eqb_eq (a b : key) : key_eqb a b = true <-> a = b.
Proof.
  destruct a as [x|], b as [y|]; cbn; try (split; congruence).
  rewrite String.eqb_eq. split; congruence.
Qed.

Lemma key_eqb_refl (a : key) : key_eqb a a = true.
Proof. now apply key_eqb_eq. Qed.

Lemma contains_In (l : list key) (k : key) :
  contains key_eqb l k = true <-> In k l.
Proof.
  unfold contains. rewrite existsb_exists. split.
  - intros (x & Hx & He). apply key_eqb_eq in He. now subst.
  - intros H. exists k. split; [assumption | apply key_eqb_refl].
Qed.

Lemma contains_false (l : list key) (k : key) :
  contains key_eqb l k = false <-> ~ In k l.
Proof.
  rewrite <- contains_In. destruct (contains key_eqb l k); split; congruence.
Qed.

Lemma keys_dict_set {V} (d : dict key V) (k : key) (v : V) :
  keys (dict_set key_eqb d k v) =
  if contains key_eqb (keys d) k then keys d else keys d ++ [k].
Proof.
  induction d as [|[k' v'] t IH]; cbn; [reflexivity|].
  destruct (key_eqb k' k) eqn:E.
  - apply key_eqb_eq in E. subst k'. now rewrite key_eqb_refl.
  - assert (E' : key_eqb k k' = false).
    { destruct (key_eqb k k') eqn:E'; [|reflexivity].
      apply key_eqb_eq in E'. subst. now rewrite key_eqb_refl in E. }
    rewrite E'. cbn. unfold keys in IH. unfold contains in IH. rewrite IH.
    now destruct (existsb (key_eqb k) (map fst t)).
Qed.

Lemma NoDup_keys_dict_set {V} (d : dict key V) (k : key) (v : V) :
  NoDup (keys d) -> NoDup (keys (dict_set key_eqb d k v)).
Proof.
  intros Hd. rewrite keys_dict_set.
  destruct (contains key_eqb (keys d) k) eqn:E; [assumption|].
  apply contains_false in E.
  apply NoDup_app; [assumption | repeat constructor; intros [] | ].
  intros x Hx [<-|[]]. contradiction.
Qed.

Lemma NoDup_keys_fold_set {A V} (f : A -> key) (g : A -> V) (l : list A)
    (d : dict key V) :
  NoDup (keys d) ->
  NoDup (keys (fold_left (fun d a => dict_set key_eqb d (f a) (g a)) l d)).
Proof.
  revert d; induction l as [|a t IH]; intros d Hd; cbn; [assumption|].
  apply IH. now apply NoDup_keys_dict_set.
Qed.

(** The keys of a [DictReader] row are pairwise distinct. *)
Lemma NoDup_keys_reader_row (fieldnames line : list string) :
  NoDup (keys (reader_row fieldnames line)).
Proof.
  unfold reader_row.
  assert (H0 : NoDup (keys
    (fold_left (fun d kv => dict_set key_eqb d (Some (fst kv)) (CStr (snd kv)))
       (combine fieldnames line) []))).
  { apply (NoDup_keys_fold_set (fun kv : string * string => Some (fst kv))
             (fun kv => CStr (snd kv))). constructor. }
  destruct (List.length fieldnames <? List.length line)%nat.
  - now apply NoDup_keys_dict_set.
  - destruct (List.length line <? List.length fieldnames)%nat; [|assumption].
    now apply (NoDup_keys_fold_set (fun k : string => Some k) (fun _ => CNone)).
Qed.

Lemma NoDup_keys_dict_reader (f : csv_file) (r : row) :
  In r (dict_reader f) -> NoDup (keys r).
Proof.
  destruct f as [|fieldnames lines]; cbn; [intros []|].
  rewrite in_map_iff. intros (line & <- & _). apply NoDup_keys_reader_row.
Qed.

Lemma NoDup_venue_cols (row0 : row) :
  NoDup (keys row0) -> NoDup (venue_cols_of row0).
Proof. intros H. unfold venue_cols_of. now apply NoDup_filter. Qed.

(** The loop of lines 91-93 appends, in order, the columns that are
    not yet listed. *)
Lemma append_missing (l acc : list key) :
  NoDup l ->
  fold_left
    (fun acc c => if negb (contains key_eqb acc c) then acc ++ [c] else acc)
    l acc
  = acc ++ filter (fun c => negb (contains key_eqb acc c)) l.
Proof.
  revert acc; induction l as [|c t IH]; intros acc Hnd; cbn [fold_left filter].
  - now rewrite app_nil_r.
  - inversion Hnd as [|? ? Hc Ht]; subst.
    destruct (contains key_eqb acc c) eqn:E; cbn [negb].
    + now apply IH.
    + rewrite IH by assumption. rewrite <- app_assoc. cbn [app]. do 2 f_equal.
      apply filter_ext_in. intros x Hx. f_equal.
      unfold contains. rewrite existsb_app. cbn.
      destruct (key_eqb x c) eqn:Exc.
      * apply key_eqb_eq in Exc. subst. contradiction.
      * now rewrite !orb_false_r.
Qed.

Lemma NoDup_order : NoDup order.
Proof.
  unfold order. repeat constructor; cbn; intuition discriminate.
Qed.

Lemma venue_cols_ordered_split (venue_cols : list key) :
  NoDup venue_cols ->
  venue_cols_ordered_of venue_cols =
    map (@Some string)
        (filter (fun c => contains key_eqb venue_cols (Some c)) order)
    ++ filter (fun k => negb (contains key_eqb (map (@Some string) order) k))
              venue_cols.
Proof.
  intros Hnd. unfold venue_cols_ordered_of. rewrite append_missing by assumption.
  f_equal. apply filter_ext_in. intros k Hk. f_equal.
  apply eq_true_iff_eq. rewrite !contains_In, !in_map_iff.
  split.
  - intros (c & <- & Hc). apply filter_In in Hc. exists c. tauto.
  - intros (c & <- & Hc). exists c. split; [reflexivity|].
    apply filter_In. split; [assumption|]. now apply contains_In.
Qed.

Lemma NoDup_map_Some (l : list string) : NoDup l -> NoDup (map (@Some string) l).
Proof.
  induction 1 as [|x t Hx Ht IH]; cbn; constructor; [|assumption].
  rewrite in_map_iff. intros (y & [= ->] & Hy). contradiction.
Qed.

Lemma filter_both_perm {A} (p : A -> bool) (l : list A) :
  Permutation (filter p l ++ filter (fun x => negb (p x)) l) l.
Proof.
  induction l as [|k t IH]; cbn [filter]; [constructor|].
  destruct (p k); cbn [negb app].
  - apply perm_skip, IH.
  - symmetry. apply Permutation_cons_app. symmetry. apply IH.
Qed.

Lemma venue_cols_ordered_perm (venue_cols : list key) :
  NoDup venue_cols ->
  Permutation (venue_cols_ordered_of venue_cols) venue_cols.
Proof.
  intros Hnd. rewrite venue_cols_ordered_split by assumption.
  set (inorder := fun k => contains key_eqb (map (@Some string) order) k).
  transitivity (filter inorder venue_cols ++ filter (fun k => negb (inorder k)) venue_cols).
  - apply Permutation_app_tail.
    apply NoDup_Permutation.
    + apply NoDup_map_Some, NoDup_filter, NoDup_order.
    + now apply NoDup_filter.
    + intros k. rewrite in_map_iff, filter_In. unfold inorder.
      rewrite contains_In, in_map_iff. split.
      * intros (c & <- & Hc). apply filter_In in Hc. destruct Hc as [Hc Hv].
        apply contains_In in Hv. split; [assumption|]. now exists c.
      * intros (Hk & c & <- & Hc). exists c. split; [reflexivity|].
        apply filter_In. split; [assumption|]. now apply contains_In.
  - apply filter_both_perm.
Qed.

Lemma dict_find_set {V} (d : dict key V) (k k' : key) (v : V) :
  dict_find key_eqb (dict_set key_eqb d k v) k' =
  if key_eqb k k' then Some v else dict_find key_eqb d k'.
Proof.
  induction d as [|[k1 v1] t IH]; cbn; [reflexivity|].
  destruct (key_eqb k1 k) eqn:E1; cbn.
  - apply key_eqb_eq in E1. subst k1. now destruct (key_eqb k k').
  - rewrite IH. destruct (key_eqb k1 k') eqn:E2; [|reflexivity].
    apply key_eqb_eq in E2. subst k'.
    destruct (key_eqb k k1) eqn:E3; [|reflexivity].
    apply key_eqb_eq in E3. subst. now rewrite key_eqb_refl in E1.
Qed.

Lemma zip_with_length {A B C} (f : A -> B -> C) (a : list A) (b : list B) :
  List.length (Np.zip_with f a b) = Nat.min (List.length a) (List.length b).
Proof.
  revert b; induction a as [|x a IH]; intros [|y b]; cbn; auto.
Qed.

Lemma zip_with_nth {A B C} (f : A -> B -> C) (a : list A) (b : list B)
    (i : nat) (da : A) (db : B) (d : C) :
  (i < List.length a)%nat -> (i < List.length b)%nat ->
  nth i (Np.zip_with f a b) d = f (nth i a da) (nth i b db).
Proof.
  revert b i; induction a as [|x a IH]; intros [|y b] [|i]; cbn;
    try lia; auto.
  intros Ha Hb. apply IH; lia.
Qed.

Lemma zeros_length (n : nat) : List.length (Np.zeros n) = n.
Proof. apply repeat_length. Qed.

Lemma maximum_length (a : list Q) (c : Q) :
  List.length (Np.maximum a c) = List.length a.
Proof. apply length_map. Qed.

(** Line 150 and line 154 at one tick. *)
Lemma pcts_of_nth (tvl vals : list Q) (i : nat) :
  (i < List.length tvl)%nat -> (i < List.length vals)%nat ->
  nth i (pcts_of (tvl_arr_of tvl) vals) 0 =
  nth i vals 0 / Qmax (nth i tvl 0) 1 * 100.
Proof.
  intros Ht Hv. unfold pcts_of, tvl_arr_of, Np.div_times.
  rewrite (@zip_with_nth _ _ _ _ vals (Np.maximum tvl 1) i 0 (Qmax 0 1) 0)
    by (rewrite ?maximum_length; assumption).
  unfold Np.maximum.
  now rewrite (map_nth (fun x => Qmax x 1)).
Qed.

Lemma pcts_of_length (tvl vals : list Q) :
  List.length (pcts_of (tvl_arr_of tvl) vals) =
  Nat.min (List.length vals) (List.length tvl).
Proof.
  unfold pcts_of, tvl_arr_of, Np.div_times.
  now rewrite zip_with_length, maximum_length.
Qed.

(** The floor keeps the divisor at 1 or above. *)
Lemma floor_ge_1 (t : Q) : 1 <= Qmax t 1.
Proof. apply Q.le_max_r. Qed.

(** What one pass of a stacking loop leaves behind: one layer per
    column, in the order of the columns, each resting on the previous
    one and as thick as the column's series. *)
Lemma stack_step_layers (series : list Q -> list Q)
    (venue_data : dict key (list Q)) (n : nat) (cols : list key) :
  (forall col vals, dict_find key_eqb venue_data col = Some vals ->
                    List.length (series vals) = n) ->
  forall b0 ls0 b ls,
  List.length b0 = n ->
  for_each (stack_step series venue_data) cols (b0, ls0) = Ok (b, ls) ->
  exists new,
    ls = ls0 ++ new /\ List.length b = n /\
    Forall2
      (fun col ly =>
         exists vals,
           dict_find key_eqb venue_data col = Some vals /\
           ly_label ly = label_of col /\ ly_color ly = color_of col /\
           List.length (ly_bottom ly) = n /\
           ly_top ly = Np.add (ly_bottom ly) (series vals))
      cols new.
Proof.
  intros Hser. induction cols as [|col t IH]; intros b0 ls0 b ls Hb0; cbn.
  - intros [= <- <-]. exists []. rewrite app_nil_r. repeat split; auto.
  - unfold dict_getitem.
    destruct (dict_find key_eqb venue_data col) as [vals|] eqn:Hf; cbn;
      [|discriminate].
    intros Hrun. apply IH in Hrun.
    + destruct Hrun as (new & -> & Hb & Hall).
      exists (mkLayer (label_of col) (color_of col) b0
                      (Np.add b0 (series vals)) :: new).
      rewrite <- app_assoc. repeat split; auto.
      constructor; [|assumption].
      exists vals. cbn. repeat split; auto.
    + unfold Np.add. rewrite zip_with_length, Hb0, (Hser col vals Hf).
      apply Nat.min_id.
Qed.

Lemma stack_layers (series : list Q -> list Q)
    (venue_data : dict key (list Q)) (n : nat) (cols : list key)
    (b : list Q) (ls : list layer) :
  (forall col vals, dict_find key_eqb venue_data col = Some vals ->
                    List.length (series vals) = n) ->
  stack series venue_data cols n = Ok (b, ls) ->
  Forall2
    (fun col ly =>
       exists vals,
         dict_find key_eqb venue_data col = Some vals /\
         ly_label ly = label_of col /\ ly_color ly = color_of col /\
         List.length (ly_bottom ly) = n /\
         ly_top ly = Np.add (ly_bottom ly) (series vals))
    cols ls.
Proof.
  intros Hser Hrun. unfold stack in Hrun.
  destruct (@stack_step_layers series venue_data n cols Hser
              (Np.zeros n) [] b ls (zeros_length n) Hrun)
    as (new & -> & _ & Hall).
  exact Hall.
Qed.

Section Derive.
Variable read_csv : string -> result csv_file.
Variable float_of_str : string -> option Q.
Variable int_of_str : string -> option Z.

(** After lines 48-50 every entry of [venue_data] is the parsed
    column of that name. *)
Lemma venue_data_of_entries (ticks : list row) (cols : list key)
    (venue_data : dict key (list Q)) :
  venue_data_of float_of_str ticks cols = Ok venue_data ->
  forall col vals,
    dict_find key_eqb venue_data col = Some vals ->
    comprehension (float_at float_of_str col) ticks = Ok vals.
Proof.
  unfold venue_data_of.
  enough (H : forall acc,
    (forall col vals, dict_find key_eqb acc col = Some vals ->
                      comprehension (float_at float_of_str col) ticks = Ok vals) ->
    for_each
      (fun venue_data col =>
         vals <~ comprehension
                   (fun r => c <~ column_of r col ;; float_ float_of_str c)
                   ticks ;;
         Ok (dict_set key_eqb venue_data col vals)) cols acc
    = Ok venue_data ->
    forall col vals, dict_find key_eqb venue_data col = Some vals ->
                     comprehension (float_at float_of_str col) ticks = Ok vals).
  { apply H. cbn. discriminate. }
  induction cols as [|c t IH]; intros acc Hacc; cbn.
  - now intros [= <-].
  - destruct (comprehension _ ticks) as [vs|e] eqn:Hc; cbn; [|discriminate].
    apply IH. intros col vals. rewrite dict_find_set.
    destruct (key_eqb c col) eqn:E.
    + apply key_eqb_eq in E. subst col. intros [= <-]. exact Hc.
    + apply Hacc.
Qed.

Lemma venue_data_entry_length (ticks : list row) (cols : list key)
    (venue_data : dict key (list Q)) (col : key) (vals : list Q) :
  venue_data_of float_of_str ticks cols = Ok venue_data ->
  dict_find key_eqb venue_data col = Some vals ->
  List.length vals = List.length ticks.
Proof.
  intros Hvd Hf.
  apply (comprehension_length (float_at float_of_str col) ticks).
  exact (venue_data_of_entries _ _ Hvd _ Hf).
Qed.

Ltac step H :=
  match type of H with
  | rbind ?r _ = Ok _ =>
      let E := fresh "E" in
      destruct r eqn:E; cbn [rbind] in H; [|discriminate H]
  end.

(** What a successful run of lines 40-167 has computed. *)
Lemma plot_figure_inv (ticks : list row) (spot_csv perp_csv : option string)
    (title : option string) (fig : alloc_fig) :
  plot_figure read_csv float_of_str int_of_str ticks spot_csv perp_csv title
    = Ok fig ->
  exists row0 rest venue_data b2 b3 initial_tvl,
    ticks = row0 :: rest /\
    comprehension (float_at float_of_str (Some "tvl"%string)) ticks
      = Ok (af_tvl fig) /\
    venue_data_of float_of_str ticks (venue_cols_of row0) = Ok venue_data /\
    stack (fun vals => vals) venue_data
          (venue_cols_ordered_of (venue_cols_of row0)) (List.length ticks)
      = Ok (b2, af_values fig) /\
    stack (pcts_of (tvl_arr_of (af_tvl fig))) venue_data
          (venue_cols_ordered_of (venue_cols_of row0)) (List.length ticks)
      = Ok (b3, af_pcts fig) /\
    af_title fig = auto_title title (venue_cols_of row0) /\
    getitem (af_tvl fig) (-1) = Ok (af_final_tvl fig) /\
    getitem (af_tvl fig) 0 = Ok initial_tvl /\
    pnl_pct_of (af_final_tvl fig) initial_tvl = Ok (af_pnl_pct fig).
Proof.
  unfold plot_figure. intros H.
  step H. step H. step H. step H. step H. step H. step H. step H. step H.
  cbv zeta in H.
  step H. step H. step H. step H. step H.
  injection H as <-. cbn [af_tvl af_values af_pcts af_title af_final_tvl af_pnl_pct].
  match goal with
  | E : getitem ticks 0 = Ok ?r |- _ =>
      destruct (getitem_first_ok _ E) as [rest ->]; exists r, rest
  end.
  match goal with
  | E : comprehension _ (_ :: _) = Ok ?ts, E' : stack _ _ _ (List.length ?ts) = _ |- _ =>
      rewrite (comprehension_length _ _ E) in *
  end.
  match goal with
  | E2 : stack (fun vals => vals) ?vd _ _ = Ok ?p2,
    E3 : stack (pcts_of _) _ _ _ = Ok ?p3,
    Ei : getitem _ 0 = Ok ?i |- _ =>
      exists vd, (fst p2), (fst p3), i;
      destruct p2, p3; cbn [fst snd]
  end.
  repeat split; assumption.
Qed.
End Derive.

End AllocationFacts.

Module AllocationClaims.
Import PyFacts PlotAllocations Stacked AllocationFacts.

(** Line 140: the guarded return percentage never raises. *)
Lemma pnl_pct_of_guarded (final_tvl initial_tvl : Q) :
  (initial_tvl <= 0 -> pnl_pct_of final_tvl initial_tvl = Ok 0) /\
  (0 < initial_tvl ->
   pnl_pct_of final_tvl initial_tvl = Ok ((final_tvl / initial_tvl - 1) * 100)).
Proof.
  unfold pnl_pct_of, gt0. split; intros H.
  - apply Qle_bool_iff in H. now rewrite H.
  - destruct (Qle_bool initial_tvl 0) eqn:E.
    + apply Qle_bool_iff in E. lra.
    + cbn [negb]. rewrite div_nonzero; [reflexivity|]. lra.
Qed.

Section PerTick.
Variable read_csv : string -> result csv_file.
Variable float_of_str : string -> option Q.
Variable int_of_str : string -> option Z.

(** The two stacked panels of a figure, read tick by tick: in panel
    2 the layer of a venue is as thick as the venue's value, in
    panel 3 as thick as that value over the floored TVL, times 100. *)
Lemma layers_at_tick (ticks : list row) (spot_csv perp_csv : option string)
    (title : option string) (fig : alloc_fig) :
  plot_figure read_csv float_of_str int_of_str ticks spot_csv perp_csv title
    = Ok fig ->
  exists row0 rest,
    ticks = row0 :: rest /\
    Forall2
      (fun col ly =>
         ly_label ly = label_of col /\ ly_color ly = color_of col /\
         forall i r, nth_error ticks i = Some r ->
           exists v,
             float_at float_of_str col r = Ok v /\
             nth i (ly_top ly) 0 = nth i (ly_bottom ly) 0 + v)
      (venue_cols_ordered_of (venue_cols_of row0)) (af_values fig) /\
    Forall2
      (fun col ly =>
         ly_label ly = label_of col /\ ly_color ly = color_of col /\
         forall i r, nth_error ticks i = Some r ->
           exists t v,
             float_at float_of_str (Some "tvl"%string) r = Ok t /\
             nth_error (af_tvl fig) i = Some t /\
             float_at float_of_str col r = Ok v /\
             nth i (ly_top ly) 0 =
               nth i (ly_bottom ly) 0 + v / Qmax t 1 * 100)
      (venue_cols_ordered_of (venue_cols_of row0)) (af_pcts fig).
Proof.
  intros Hrun.
  destruct (@plot_figure_inv read_csv float_of_str int_of_str ticks
              spot_csv perp_csv title fig Hrun)
    as (row0 & rest & vd & b2 & b3 & ini & Ht & Htvl & Hvd & H2 & H3 & _).
  exists row0, rest. split; [assumption|].
  pose proof (@comprehension_length _ _ _ _ _ Htvl) as Ltvl.
  assert (Lvals : forall col vals,
            dict_find key_eqb vd col = Some vals ->
            List.length vals = List.length ticks).
  { intros col vals Hf. eapply venue_data_entry_length; eassumption. }
  split.
  - apply stack_layers in H2; [|exact Lvals].
    eapply Forall2_impl; [|exact H2]. cbv beta.
    intros col ly (vals & Hf & Hl & Hc & Hb & Htop).
    repeat split; try assumption.
    intros i r Hi.
    assert (Hcol : comprehension (float_at float_of_str col) ticks = Ok vals)
      by (eapply venue_data_of_entries; eassumption).
    destruct (@comprehension_nth _ _ _ _ _ i r Hcol Hi) as (v & Hv & Hnv).
    exists v. split; [assumption|].
    assert (Hlt : (i < List.length ticks)%nat)
      by (apply nth_error_Some; congruence).
    rewrite Htop. unfold Np.add.
    rewrite (@zip_with_nth _ _ _ Qplus (ly_bottom ly) vals i 0 0 0)
      by (rewrite ?Hb, ?(Lvals _ _ Hf); assumption).
    now rewrite (@nth_error_nth _ vals i v 0 Hnv).
  - apply stack_layers in H3.
    + eapply Forall2_impl; [|exact H3]. cbv beta.
      intros col ly (vals & Hf & Hl & Hc & Hb & Htop).
      repeat split; try assumption.
      intros i r Hi.
      assert (Hcol : comprehension (float_at float_of_str col) ticks = Ok vals)
        by (eapply venue_data_of_entries; eassumption).
      destruct (@comprehension_nth _ _ _ _ _ i r Hcol Hi) as (v & Hv & Hnv).
      destruct (@comprehension_nth _ _ _ _ _ i r Htvl Hi) as (t & Htv & Hnt).
      exists t, v. repeat split; try assumption.
      assert (Hlt : (i < List.length ticks)%nat)
        by (apply nth_error_Some; congruence).
      rewrite Htop. unfold Np.add.
      rewrite (@zip_with_nth _ _ _ Qplus (ly_bottom ly)
                 (pcts_of (tvl_arr_of (af_tvl fig)) vals) i 0 0 0).
      * rewrite pcts_of_nth by (rewrite ?Ltvl, ?(Lvals _ _ Hf); assumption).
        now rewrite (@nth_error_nth _ vals i v 0 Hnv),
          (@nth_error_nth _ (af_tvl fig) i t 0 Hnt).
      * now rewrite Hb.
      * rewrite pcts_of_length, Ltvl, (Lvals _ _ Hf), Nat.min_id. assumption.
    + intros col vals Hf.
      now rewrite pcts_of_length, Ltvl, (Lvals _ _ Hf), Nat.min_id.
Qed.

(** The annotation of panel 2: the return in percent of the final
    over the initial TVL, and 0 when the initial TVL is not positive. *)
Lemma plot_figure_pnl_pct (ticks : list row)
    (spot_csv perp_csv : option string) (title : option string)
    (fig : alloc_fig) :
  plot_figure read_csv float_of_str int_of_str ticks spot_csv perp_csv title
    = Ok fig ->
  exists initial_tvl,
    getitem (af_tvl fig) 0 = Ok initial_tvl /\
    getitem (af_tvl fig) (-1) = Ok (af_final_tvl fig) /\
    (initial_tvl <= 0 -> af_pnl_pct fig = 0) /\
    (0 < initial_tvl ->
     af_pnl_pct fig = (af_final_tvl fig / initial_tvl - 1) * 100).
Proof.
  intros Hrun.
  destruct (@plot_figure_inv read_csv float_of_str int_of_str ticks
              spot_csv perp_csv title fig Hrun)
    as (_ & _ & _ & _ & _ & ini & _ & _ & _ & _ & _ & _ & Hl & Hf & Hp).
  exists ini. repeat split; try assumption.
  - intros H. apply (pnl_pct_of_guarded (af_final_tvl fig)) in H. congruence.
  - intros H. apply (pnl_pct_of_guarded (af_final_tvl fig)) in H. congruence.
Qed.

(** C3.  In the percentage panel the layer of each venue at each
    tick is the venue's value divided by the TVL floored at 1.0,
    times 100; the divisor is at least 1.0 whatever the TVL, zero
    and negative values included. *)
Theorem pct_over_floored_tvl (ticks : list row)
    (spot_csv perp_csv : option string) (title : option string)
    (fig : alloc_fig) :
  plot_figure read_csv float_of_str int_of_str ticks spot_csv perp_csv title
    = Ok fig ->
  exists row0 rest,
    ticks = row0 :: rest /\
    Forall2
      (fun col ly =>
         forall i r, nth_error ticks i = Some r ->
           exists t v,
             float_at float_of_str (Some "tvl"%string) r = Ok t /\
             float_at float_of_str col r = Ok v /\
             1 <= Qmax t 1 /\
             nth i (ly_top ly) 0 =
               nth i (ly_bottom ly) 0 + v / Qmax t 1 * 100)
      (venue_cols_ordered_of (venue_cols_of row0)) (af_pcts fig).
Proof.
  intros Hrun.
  destruct (@layers_at_tick ticks spot_csv perp_csv title fig Hrun)
    as (row0 & rest & Ht & _ & H3).
  exists row0, rest. split; [assumption|].
  eapply Forall2_impl; [|exact H3]. cbv beta.
  intros col ly (_ & _ & H) i r Hi.
  destruct (H i r Hi) as (t & v & Htv & _ & Hv & Htop).
  exists t, v. repeat split; try assumption. apply floor_ge_1.
Qed.
End PerTick.

Lemma pct_over_floored_tvl_witness :
  exists fig,
    plot_figure Samples.fs Samples.float_of_decimal Samples.int_of_decimal
      (dict_reader Samples.ticks_file) None None None = Ok fig
    /\ exists row0 rest,
      dict_reader Samples.ticks_file = row0 :: rest /\
      Forall2
        (fun col ly =>
           forall i r, nth_error (dict_reader Samples.ticks_file) i = Some r ->
             exists t v,
               float_at Samples.float_of_decimal (Some "tvl"%string) r = Ok t /\
               float_at Samples.float_of_decimal col r = Ok v /\
               1 <= Qmax t 1 /\
               nth i (ly_top ly) 0 =
                 nth i (ly_bottom ly) 0 + v / Qmax t 1 * 100)
        (venue_cols_ordered_of (venue_cols_of row0)) (af_pcts fig).
Proof.
  eexists. split.
  - vm_compute. reflexivity.
  - apply (@pct_over_floored_tvl Samples.fs Samples.float_of_decimal
             Samples.int_of_decimal (dict_reader Samples.ticks_file)
             None None None).
    vm_compute. reflexivity.
Defined.

(** Thickness of a layer whose top is its bottom plus [x]. *)
Lemma thickness_of_sum (ly : layer) (i : nat) (x : Q) :
  nth i (ly_top ly) 0 = nth i (ly_bottom ly) 0 + x -> thickness ly i == x.
Proof. unfold thickness. intros ->. ring. Qed.

(** Summing the layers of panel 3 gives the sum of panel 2, scaled. *)
Lemma totals_scaled {C} (value : C -> result Q) (m : Q) (i : nat)
    (cols : list C) :
  ~ m == 0 ->
  forall l2 l3,
  Forall2 (fun col ly => exists v, value col = Ok v /\
             nth i (ly_top ly) 0 = nth i (ly_bottom ly) 0 + v) cols l2 ->
  Forall2 (fun col ly => exists v, value col = Ok v /\
             nth i (ly_top ly) 0 = nth i (ly_bottom ly) 0 + v / m * 100)
          cols l3 ->
  total l3 i == total l2 i / m * 100.
Proof.
  intros Hm. induction cols as [|c t IH]; intros l2 l3 H2 H3.
  - inversion H2; inversion H3; subst. cbn. field. exact Hm.
  - inversion H2 as [|? y2 ? t2 (v2 & Hv2 & Ht2) H2']; subst.
    inversion H3 as [|? y3 ? t3 (v3 & Hv3 & Ht3) H3']; subst.
    cbn [total fold_right]. fold (total t2 i). fold (total t3 i).
    rewrite (IH t2 t3 H2' H3').
    rewrite (thickness_of_sum _ _ Ht2), (thickness_of_sum _ _ Ht3).
    assert (v3 = v2) by congruence. subst v3.
    field. exact Hm.
Qed.

Lemma scaled_gt_100 (s m : Q) : 0 < m -> (100 < s / m * 100 <-> m < s).
Proof.
  intros Hm.
  assert (E : s / m * m == s) by (field; lra).
  pose proof (Qmult_lt_r 1 (s / m) m Hm) as Hlt.
  rewrite E in Hlt.
  split; intros H.
  - assert (H1 : 1 < s / m) by lra. apply Hlt in H1. lra.
  - assert (H1 : 1 * m < s) by lra. apply Hlt in H1. lra.
Qed.


Section Totals.
Variable read_csv : string -> result csv_file.
Variable float_of_str : string -> option Q.
Variable int_of_str : string -> option Z.

(** At every tick the percentages add up to the sum of the venue
    values over the floored TVL, times 100. *)
Lemma pct_total_scaled (ticks : list row) (spot_csv perp_csv : option string)
    (title : option string) (fig : alloc_fig) (i : nat) :
  plot_figure read_csv float_of_str int_of_str ticks spot_csv perp_csv title
    = Ok fig ->
  (i < List.length ticks)%nat ->
  total (af_pcts fig) i ==
    total (af_values fig) i / Qmax (nth i (af_tvl fig) 0) 1 * 100.
Proof.
  intros Hrun Hi.
  destruct (@layers_at_tick read_csv float_of_str int_of_str
              ticks spot_csv perp_csv title fig Hrun)
    as (row0 & rest & Ht & H2 & H3).
  destruct (nth_error ticks i) as [r|] eqn:Hr;
    [|apply nth_error_None in Hr; lia].
  assert (Htvl : exists t, float_at float_of_str (Some "tvl"%string) r = Ok t
                           /\ nth i (af_tvl fig) 0 = t).
  { destruct (@plot_figure_inv read_csv float_of_str int_of_str ticks
                spot_csv perp_csv title fig Hrun)
      as (_ & _ & _ & _ & _ & _ & _ & Hc & _).
    destruct (@comprehension_nth _ _ _ _ _ i r Hc Hr) as (t & Hft & Hnt).
    exists t. split; [assumption|]. now apply nth_error_nth. }
  destruct Htvl as (t & Hft & Hnt). rewrite Hnt.
  apply (@totals_scaled key (fun col => float_at float_of_str col r)
           (Qmax t 1) i (venue_cols_ordered_of (venue_cols_of row0))).
  - pose proof (floor_ge_1 t). lra.
  - eapply Forall2_impl; [|exact H2]. cbv beta.
    intros col ly (_ & _ & H). exact (H i r Hr).
  - eapply Forall2_impl; [|exact H3]. cbv beta.
    intros col ly (_ & _ & H).
    destruct (H i r Hr) as (t' & v & Ht' & _ & Hv & Htop).
    assert (t' = t) by congruence. subst t'.
    exists v. split; assumption.
Qed.

(** The percentages exceed 100 exactly when the venue values sum
    above the floored TVL. *)
Lemma pct_total_exceeds_iff (ticks : list row)
    (spot_csv perp_csv : option string) (title : option string)
    (fig : alloc_fig) (i : nat) :
  plot_figure read_csv float_of_str int_of_str ticks spot_csv perp_csv title
    = Ok fig ->
  (i < List.length ticks)%nat ->
  (100 < total (af_pcts fig) i <->
   Qmax (nth i (af_tvl fig) 0) 1 < total (af_values fig) i).
Proof.
  intros Hrun Hi.
  rewrite (@pct_total_scaled ticks spot_csv perp_csv title fig i Hrun Hi).
  apply scaled_gt_100.
  pose proof (floor_ge_1 (nth i (af_tvl fig) 0)). lra.
Qed.

End Totals.


(** Once the invariant is broken the percentages may pass 100: the
    third sample tick has a negative TVL under venue values of 10. *)
Example pct_total_can_exceed :
  exists fig,
    plot_figure Samples.fs Samples.float_of_decimal Samples.int_of_decimal
      (dict_reader Samples.ticks_file) None None None = Ok fig
    /\ total (af_pcts fig) 2 == 1000.
Proof. eexists. split; vm_compute; reflexivity. Qed.

Lemma Forall2_map_eq {A B C} (f : A -> C) (g : B -> C) (la : list A) (lb : list B) :
  Forall2 (fun a b => g b = f a) la lb -> map g lb = map f la.
Proof. induction 1; cbn; congruence. Qed.

Section Ordering.
Variable read_csv : string -> result csv_file.
Variable float_of_str : string -> option Q.
Variable int_of_str : string -> option Z.

(** C5.  On a tick file made of a header line only (blank lines
    aside), [plot] prints its notice and returns normally; nothing
    is saved. *)
Theorem plot_header_only (tick_csv : string) (fieldnames : list string)
    (blanks : list (list string)) (spot_csv perp_csv : option string)
    (output : string) (title : option string) (w : world) :
  read_csv tick_csv = Ok (fieldnames :: blanks) ->
  Forall (fun l => l = []) blanks ->
  plot read_csv float_of_str int_of_str tick_csv spot_csv perp_csv
       output title w
  = (Ok tt, mkWorld (stdout w ++ [Text "No tick data found"]) (files w)).
Proof.
  intros Hread Hblank.
  unfold plot, bind, lift, load_csv. rewrite Hread. cbn [rbind dict_reader].
  assert (Hf : filter (@truthy string) blanks = []).
  { clear Hread. induction Hblank as [|l t -> _ IH]; cbn; [reflexivity | exact IH]. }
  rewrite Hf. reflexivity.
Qed.

(** C8.  The venue columns are the columns of the first row other
    than [timestamp] and [tvl]; they are stacked with the columns of
    the preference list first, in the order of that list, then the
    other columns in header order; this is a rearrangement of the
    venue columns, and both stacked panels follow it. *)
Theorem venue_stacking_order (f : csv_file) (row0 : row) (rest : list row) :
  dict_reader f = row0 :: rest ->
  let venue_cols := venue_cols_of row0 in
  let ordered := venue_cols_ordered_of venue_cols in
  (forall k, In k venue_cols <->
             In k (keys row0) /\ k <> Some "timestamp"%string
             /\ k <> Some "tvl"%string)
  /\ ordered =
       map (@Some string)
           (filter (fun c => contains key_eqb venue_cols (Some c)) order)
       ++ filter (fun k => negb (contains key_eqb (map (@Some string) order) k))
                 venue_cols
  /\ Permutation ordered venue_cols
  /\ forall spot_csv perp_csv title fig,
       plot_figure read_csv float_of_str int_of_str (row0 :: rest)
                   spot_csv perp_csv title = Ok fig ->
       map ly_label (af_values fig) = map label_of ordered /\
       map ly_color (af_values fig) = map color_of ordered /\
       map ly_label (af_pcts fig) = map label_of ordered /\
       map ly_color (af_pcts fig) = map color_of ordered.
Proof.
  intros Hf venue_cols ordered.
  assert (Hnd : NoDup venue_cols).
  { apply NoDup_venue_cols, (@NoDup_keys_dict_reader f).
    rewrite Hf. now left. }
  split; [|split; [|split]].
  - intros k. unfold venue_cols, venue_cols_of. rewrite filter_In.
    cbn [contains existsb]. rewrite orb_false_r, negb_true_iff, orb_false_iff.
    assert (E : forall a b : key, key_eqb a b = false <-> a <> b).
    { intros a b. rewrite <- key_eqb_eq. destruct (key_eqb a b); split; congruence. }
    rewrite !E. tauto.
  - now apply venue_cols_ordered_split.
  - now apply venue_cols_ordered_perm.
  - intros spot_csv perp_csv title fig Hrun.
    destruct (@layers_at_tick read_csv float_of_str int_of_str
                (row0 :: rest) spot_csv perp_csv title fig Hrun)
      as (r0 & rs & [= <- <-] & H2 & H3).
    fold venue_cols in H2, H3. fold ordered in H2, H3.
    repeat split; apply Forall2_map_eq;
      (eapply Forall2_impl; [|eassumption]); cbv beta; tauto.
Qed.
End Ordering.

Lemma plot_header_only_witness :
  plot Samples.fs Samples.float_of_decimal Samples.int_of_decimal
       "empty.csv" None None "out.png" None empty_world
  = (Ok tt, mkWorld ([] ++ [Text "No tick data found"]) []).
Proof.
  apply (@plot_header_only Samples.fs Samples.float_of_decimal
           Samples.int_of_decimal "empty.csv" Samples.header []).
  - reflexivity.
  - constructor.
Defined.

Lemma venue_stacking_order_witness :
  exists row0 rest,
    dict_reader Samples.ticks_file = row0 :: rest /\
    venue_cols_of row0 =
      [Some "lend_usdc"; Some "pendle"; Some "buy_eth"; Some "short_eth"]%string /\
    venue_cols_ordered_of (venue_cols_of row0) =
      [Some "buy_eth"; Some "short_eth"; Some "lend_usdc"; Some "pendle"]%string /\
    Permutation (venue_cols_ordered_of (venue_cols_of row0)) (venue_cols_of row0).
Proof.
  eexists. eexists. split; [vm_compute; reflexivity|].
  split; [vm_compute; reflexivity|].
  split; [vm_compute; reflexivity|].
  eapply (@venue_stacking_order Samples.fs Samples.float_of_decimal
            Samples.int_of_decimal Samples.ticks_file).
  vm_compute. reflexivity.
Defined.

End AllocationClaims.

(** ** Trajectory pipeline: further properties *)

Module BacktestExtras.
Import PyFacts PlotBacktest BacktestFacts BacktestClaims Terms.

Lemma sort_cons (x : Q) (l : list Q) :
  Np.sort (x :: l) = Np.insert x (Np.sort l).
Proof. reflexivity. Qed.

Lemma insert_length (x : Q) (l : list Q) :
  List.length (Np.insert x l) = S (List.length l).
Proof.
  induction l as [|y t IH]; cbn; [reflexivity|].
  destruct (Qle_bool x y); cbn; [reflexivity | now rewrite IH].
Qed.

Lemma sort_length (l : list Q) : List.length (Np.sort l) = List.length l.
Proof.
  induction l as [|x t IH]; [reflexivity|].
  now rewrite sort_cons, insert_length, IH.
Qed.

Lemma insert_In (x y : Q) (l : list Q) :
  In y (Np.insert x l) <-> y = x \/ In y l.
Proof.
  induction l as [|z t IH]; cbn; [intuition|].
  destruct (Qle_bool x z); cbn; [intuition|]. rewrite IH. intuition.
Qed.

Lemma sort_In (y : Q) (l : list Q) : In y (Np.sort l) <-> In y l.
Proof.
  induction l as [|x t IH]; [reflexivity|].
  rewrite sort_cons, insert_In, IH. cbn. intuition.
Qed.

Lemma cons_sorted (x : Q) (l : list Q) :
  (forall y, In y l -> x <= y) -> sorted l -> sorted (x :: l).
Proof.
  intros Hx Hl i j Hij Hj. destruct j as [|j]; destruct i as [|i]; cbn in *.
  - apply Qle_refl.
  - lia.
  - apply Hx, nth_In. lia.
  - apply Hl; lia.
Qed.

Lemma sorted_tail (x : Q) (l : list Q) : sorted (x :: l) -> sorted l.
Proof. intros H i j Hij Hj. apply (H (S i) (S j)); cbn; lia. Qed.

Lemma sorted_head (x y : Q) (l : list Q) : sorted (x :: l) -> In y l -> x <= y.
Proof.
  intros H Hy. destruct (In_nth l y 0 Hy) as (k & Hk & <-).
  apply (H 0%nat (S k)); cbn; lia.
Qed.

Lemma insert_sorted (x : Q) (l : list Q) : sorted l -> sorted (Np.insert x l).
Proof.
  induction l as [|y t IH]; intros Hl.
  - cbn [Np.insert]. apply cons_sorted; [intros ? []|]. exact Hl.
  - cbn [Np.insert]. destruct (Qle_bool x y) eqn:E.
    + apply Qle_bool_iff in E. apply cons_sorted; [|exact Hl].
      intros z [<-|Hz]; [exact E|].
      apply Qle_trans with y; [exact E|]. now apply (@sorted_head y z t Hl).
    + assert (Hyx : y <= x).
      { apply Qlt_le_weak, Qnot_le_lt. intros H. apply Qle_bool_iff in H. congruence. }
      apply cons_sorted; [|apply IH; now apply (@sorted_tail y t)].
      intros z Hz. apply insert_In in Hz. destruct Hz as [->|Hz]; [exact Hyx|].
      now apply (@sorted_head y z t Hl).
Qed.

Lemma sort_sorted (l : list Q) : sorted (Np.sort l).
Proof.
  induction l as [|x t IH].
  - intros i j _ Hj. cbn in Hj. lia.
  - rewrite sort_cons. apply insert_sorted. exact IH.
Qed.

Lemma percentile_lerp (a : list Q) (q : Q) :
  Np.percentile a q =
  lerp_at (Np.sort a) (q / 100 * (inject_Z (Z.of_nat (List.length (Np.sort a))) - 1)).
Proof. reflexivity. Qed.

Lemma floor_index (s : list Q) (v : Q) :
  0 <= v -> v <= inject_Z (Z.of_nat (List.length s)) - 1 ->
  (0 <= Qfloor v)%Z /\ (Z.to_nat (Qfloor v) < List.length s)%nat.
Proof.
  intros H0 Hn.
  assert (Hlo : (0 <= Qfloor v)%Z).
  { change 0%Z with (Qfloor 0). now apply Qfloor_resp_le. }
  split; [exact Hlo|].
  assert (Hhi : (Qfloor v <= Z.of_nat (List.length s) - 1)%Z).
  { rewrite <- (Qfloor_Z (Z.of_nat (List.length s) - 1)).
    apply Qfloor_resp_le. unfold Z.sub. rewrite inject_Z_plus, inject_Z_opp.
    exact Hn. }
  lia.
Qed.

(** Between its two neighbours. *)
Lemma lerp_at_between (s : list Q) (v : Q) :
  sorted s -> 0 <= v -> v <= inject_Z (Z.of_nat (List.length s)) - 1 ->
  nth (Z.to_nat (Qfloor v)) s 0 <= lerp_at s v /\
  lerp_at s v <=
    nth (Nat.min (S (Z.to_nat (Qfloor v))) (Nat.pred (List.length s))) s 0.
Proof.
  intros Hs H0 Hn. destruct (floor_index s H0 Hn) as [Hlo Hi].
  unfold lerp_at. cbv zeta.
  set (i := Z.to_nat (Qfloor v)) in *.
  set (j := Nat.min (S i) (Nat.pred (List.length s))).
  assert (Hab : nth i s 0 <= nth j s 0) by (apply Hs; unfold j; lia).
  pose proof (Qfloor_le v) as G0.
  pose proof (Qlt_floor v) as G1.
  rewrite inject_Z_plus in G1. change (inject_Z 1) with 1 in G1.
  set (g := v - inject_Z (Qfloor v)).
  assert (Hg0 : 0 <= g) by (unfold g; lra).
  assert (Hg1 : g <= 1) by (unfold g; lra).
  clearbody g.
  set (x := nth i s 0) in *. set (y := nth j s 0) in *.
  assert (Hp : 0 <= (y - x) * g) by (apply Qmult_le_0_compat; lra).
  assert (Hq : 0 <= (y - x) * (1 - g)) by (apply Qmult_le_0_compat; lra).
  split; lra.
Qed.

Lemma lerp_at_mono (s : list Q) (v v' : Q) :
  sorted s -> 0 <= v -> v <= v' ->
  v' <= inject_Z (Z.of_nat (List.length s)) - 1 ->
  lerp_at s v <= lerp_at s v'.
Proof.
  intros Hs H0 Hvv Hn.
  assert (Hn0 : v <= inject_Z (Z.of_nat (List.length s)) - 1) by lra.
  assert (H0' : 0 <= v') by lra.
  destruct (floor_index s H0 Hn0) as [Hlo Hi].
  destruct (floor_index s H0' Hn) as [Hlo' Hi'].
  pose proof (Qfloor_resp_le v v' Hvv) as Hll.
  destruct (Z.eq_dec (Qfloor v) (Qfloor v')) as [E|NE].
  - unfold lerp_at. cbv zeta. rewrite <- E.
    set (i := Z.to_nat (Qfloor v)) in *.
    set (j := Nat.min (S i) (Nat.pred (List.length s))).
    assert (Hab : nth i s 0 <= nth j s 0) by (apply Hs; unfold j; lia).
    set (f := inject_Z (Qfloor v)).
    set (x := nth i s 0) in *. set (y := nth j s 0) in *.
    assert (Hp : 0 <= (y - x) * (v' - v)) by (apply Qmult_le_0_compat; lra).
    lra.
  - destruct (lerp_at_between Hs H0 Hn0) as [_ Hup].
    destruct (lerp_at_between Hs H0' Hn) as [Hdown _].
    apply Qle_trans with (2 := Hdown).
    apply Qle_trans with (1 := Hup).
    apply Hs; lia.
Qed.

(** [np.percentile] does not decrease with [q] on [0, 100]. *)
Lemma percentile_mono (a : list Q) (q q' : Q) :
  a <> [] -> 0 <= q -> q <= q' -> q' <= 100 ->
  Np.percentile a q <= Np.percentile a q'.
Proof.
  intros Ha H0 Hqq H100. rewrite !percentile_lerp.
  assert (Hn : 1 <= inject_Z (Z.of_nat (List.length (Np.sort a)))).
  { rewrite sort_length. destruct a as [|x t]; [congruence|].
    change 1 with (inject_Z 1). rewrite <- Zle_Qle. cbn [List.length]. lia. }
  remember (inject_Z (Z.of_nat (List.length (Np.sort a)))) as m eqn:Em.
  assert (Hm : 0 <= m - 1) by lra.
  assert (P0 : 0 <= q * (m - 1)) by (apply Qmult_le_0_compat; lra).
  assert (P1 : 0 <= (q' - q) * (m - 1)) by (apply Qmult_le_0_compat; lra).
  assert (P2 : 0 <= (100 - q') * (m - 1)) by (apply Qmult_le_0_compat; lra).
  unfold Qdiv. change (/ 100) with (1 # 100).
  apply lerp_at_mono.
  - apply sort_sorted.
  - lra.
  - lra.
  - rewrite <- Em. lra.
Qed.

(** [np.percentile] stays within the data. *)
Lemma percentile_within (a : list Q) (q : Q) :
  a <> [] -> 0 <= q -> q <= 100 ->
  exists x y, In x a /\ In y a /\
    x <= Np.percentile a q /\ Np.percentile a q <= y.
Proof.
  intros Ha H0 H100. rewrite percentile_lerp.
  assert (Hlen : (0 < List.length (Np.sort a))%nat).
  { rewrite sort_length. destruct a; [congruence | cbn; lia]. }
  assert (Hn : 1 <= inject_Z (Z.of_nat (List.length (Np.sort a)))).
  { change 1 with (inject_Z 1). rewrite <- Zle_Qle. lia. }
  remember (inject_Z (Z.of_nat (List.length (Np.sort a)))) as m eqn:Em.
  assert (P0 : 0 <= q * (m - 1)) by (apply Qmult_le_0_compat; lra).
  assert (P2 : 0 <= (100 - q) * (m - 1)) by (apply Qmult_le_0_compat; lra).
  unfold Qdiv. change (/ 100) with (1 # 100).
  set (v := q * (1 # 100) * (m - 1)).
  assert (Hv0 : 0 <= v) by (unfold v; lra).
  assert (Hvn : v <= inject_Z (Z.of_nat (List.length (Np.sort a))) - 1)
    by (rewrite <- Em; unfold v; lra).
  destruct (lerp_at_between (sort_sorted a) Hv0 Hvn) as [Hlo Hhi].
  destruct (floor_index (Np.sort a) Hv0 Hvn) as [_ Hi].
  eexists. eexists. split; [|split; [|split; [exact Hlo | exact Hhi]]].
  - apply sort_In, nth_In. exact Hi.
  - apply sort_In, nth_In. lia.
Qed.

Lemma column_nonempty (j : nat) (arr : list (list Q)) :
  arr <> [] -> Np.column j arr <> [].
Proof. destruct arr; [congruence | discriminate]. Qed.

Lemma percentile_axis0_mono (arr : list (list Q)) (q q' : Q) (i : nat) :
  arr <> [] -> 0 <= q -> q <= q' -> q' <= 100 ->
  nth i (Np.percentile_axis0 arr q) 0 <= nth i (Np.percentile_axis0 arr q') 0.
Proof.
  intros Harr H0 Hqq H100.
  destruct (Nat.lt_ge_cases i (Np.ncols arr)) as [Hi|Hi].
  - rewrite !percentile_axis0_nth by assumption.
    apply percentile_mono; try assumption. now apply column_nonempty.
  - rewrite !nth_overflow by (rewrite percentile_axis0_length; assumption).
    apply Qle_refl.
Qed.

Lemma mc_bands_matrix (data : backtest) (tvls : list Q) (b : bands) :
  mc_bands data tvls = Some b ->
  exists mc,
    monte_carlo data = Some mc /\
    sim_matrix (simulations mc) (List.length tvls) <> [] /\
    b = mkBands
          (Np.percentile_axis0 (sim_matrix (simulations mc) (List.length tvls)) 5)
          (Np.percentile_axis0 (sim_matrix (simulations mc) (List.length tvls)) 25)
          (Np.percentile_axis0 (sim_matrix (simulations mc) (List.length tvls)) 75)
          (Np.percentile_axis0 (sim_matrix (simulations mc) (List.length tvls)) 95).
Proof.
  unfold mc_bands. destruct (monte_carlo data) as [mc|]; [|discriminate].
  destruct (truthy (simulations mc)); [|discriminate].
  destruct (sim_matrix (simulations mc) (List.length tvls)) as [|r m] eqn:E;
    [discriminate|].
  cbn [truthy]. intros [= <-]. exists mc.
  split; [reflexivity|]. rewrite E. split; [discriminate | reflexivity].
Qed.

(** X1.  Whenever confidence bands are drawn they are nested: at
    every tick the 5th percentile is at most the 25th, the 25th at
    most the 75th and the 75th at most the 95th, so the inner filled
    band lies inside the outer one. *)
Theorem mc_bands_nested (data : backtest) (tvls : list Q) (b : bands) (i : nat) :
  mc_bands data tvls = Some b ->
  nth i (p5 b) 0 <= nth i (p25 b) 0 /\
  nth i (p25 b) 0 <= nth i (p75 b) 0 /\
  nth i (p75 b) 0 <= nth i (p95 b) 0.
Proof.
  intros Hb. destruct (@mc_bands_matrix data tvls b Hb) as (mc & _ & Hm & ->).
  cbn [p5 p25 p75 p95].
  repeat split; apply percentile_axis0_mono; try assumption; lra.
Qed.

Lemma mc_bands_nested_witness :
  exists b,
    mc_bands Samples.with_mc
      (map tvl (trajectory (historical Samples.with_mc))) = Some b /\
    nth 1 (p5 b) 0 <= nth 1 (p25 b) 0 /\
    nth 1 (p25 b) 0 <= nth 1 (p75 b) 0 /\
    nth 1 (p75 b) 0 <= nth 1 (p95 b) 0.
Proof.
  eexists. split; [vm_compute; reflexivity|].
  apply (@mc_bands_nested Samples.with_mc
           (map tvl (trajectory (historical Samples.with_mc)))).
  vm_compute. reflexivity.
Defined.

(** X2.  Every band value is bracketed by the data it summarises: at
    each tick of the history, the 5th percentile is at least the value
    some qualifying simulation has at that tick and the 95th
    percentile at most the value of some qualifying simulation, a
    qualifying simulation being one with at least as many ticks as the
    history. *)
Theorem mc_bands_within_simulations (data : backtest) (b : bands) (i : nat) :
  let tvls := map tvl (trajectory (historical data)) in
  mc_bands data tvls = Some b ->
  (i < List.length tvls)%nat ->
  exists mc s_lo s_hi,
    monte_carlo data = Some mc /\
    In s_lo (simulations mc) /\ In s_hi (simulations mc) /\
    (List.length tvls <= List.length (get_trajectory s_lo))%nat /\
    (List.length tvls <= List.length (get_trajectory s_hi))%nat /\
    nth i (map tvl (get_trajectory s_lo)) 0 <= nth i (p5 b) 0 /\
    nth i (p95 b) 0 <= nth i (map tvl (get_trajectory s_hi)) 0.
Proof.
  intros tvls Hb Hi.
  destruct (@mc_bands_matrix data tvls b Hb) as (mc & Hmc & Hm & ->).
  cbn [p5 p95].
  pose proof (@ncols_sim_matrix (simulations mc) (List.length tvls) Hm) as Hc.
  rewrite !percentile_axis0_nth by (rewrite Hc; exact Hi).
  rewrite (@column_sim_matrix (simulations mc) (List.length tvls) i Hi).
  set (qual := filter _ (simulations mc)).
  set (col := map _ qual).
  assert (Hcol : col <> []).
  { unfold col. intros E. apply map_eq_nil in E.
    apply Hm. rewrite sim_matrix_filter. fold qual. now rewrite E. }
  destruct (@percentile_within col 5 Hcol) as (x & _ & Hx & _ & Hlo & _);
    [lra | lra |].
  destruct (@percentile_within col 95 Hcol) as (_ & y & _ & Hy & _ & Hhi);
    [lra | lra |].
  unfold col in Hx, Hy. apply in_map_iff in Hx, Hy.
  destruct Hx as (s1 & <- & Hs1). destruct Hy as (s2 & <- & Hs2).
  unfold qual in Hs1, Hs2. apply filter_In in Hs1, Hs2.
  destruct Hs1 as [Hin1 Hq1]. destruct Hs2 as [Hin2 Hq2].
  apply Nat.leb_le in Hq1, Hq2.
  exists mc, s1, s2. repeat split; assumption.
Qed.

Lemma mc_bands_within_simulations_witness :
  exists b mc s_lo s_hi,
    mc_bands Samples.with_mc
      (map tvl (trajectory (historical Samples.with_mc))) = Some b /\
    monte_carlo Samples.with_mc = Some mc /\
    In s_lo (simulations mc) /\ In s_hi (simulations mc) /\
    nth 2 (map tvl (get_trajectory s_lo)) 0 <= nth 2 (p5 b) 0 /\
    nth 2 (p95 b) 0 <= nth 2 (map tvl (get_trajectory s_hi)) 0.
Proof.
  eexists.
  destruct (@mc_bands_within_simulations Samples.with_mc _ 2
              ltac:(vm_compute; reflexivity) ltac:(vm_compute; lia))
    as (mc & s1 & s2 & H1 & H2 & H3 & _ & _ & H4 & H5).
  exists mc, s1, s2. split; [vm_compute; reflexivity|].
  repeat split; assumption.
Defined.

(** X3.  Called without the path of a backtest file, [main] prints
    its usage line and exits with status 1; it loads nothing and saves
    nothing. *)
Theorem main_usage (load_data : string -> result backtest)
    (argv : list string) (w : world) :
  (List.length argv < 2)%nat ->
  main load_data argv w =
    (Raise (SystemExit 1),
     mkWorld
       (stdout w ++
          [Text "Usage: plot_backtest.py <backtest_output.json> [output_dir]"])
       (files w)).
Proof.
  intros Hlen. unfold main.
  assert (H : (Z.of_nat (List.length argv) <? 2)%Z = true)
    by (apply Z.ltb_lt; lia).
  rewrite H. reflexivity.
Qed.

Lemma main_usage_witness :
  main (fun _ => Ok Samples.plain) ["plot_backtest.py"]%string empty_world =
    (Raise (SystemExit 1),
     mkWorld
       ([] ++ [Text "Usage: plot_backtest.py <backtest_output.json> [output_dir]"])
       []).
Proof.
  apply (@main_usage (fun _ => Ok Samples.plain) ["plot_backtest.py"]%string
           empty_world).
  cbn. lia.
Defined.

Lemma plot_mc_distribution_saves (data : backtest) (mc : monte_carlo_t)
    (out_dir : path) (w : world) :
  monte_carlo data = Some mc ->
  simulations mc <> [] ->
  plot_mc_distribution data out_dir w =
    (Ok tt,
     mkWorld
       (stdout w ++ [TextPath "  Saved " (PathJoin out_dir "mc_distributions.png")])
       (files w ++
          [(PathJoin out_dir "mc_distributions.png",
            FigMc (mkMcFig
                     (map sim_twrr_pct (simulations mc))
                     (twrr_pct (historical data))
                     (map sim_max_drawdown_pct (simulations mc))
                     (max_drawdown_pct (historical data))
                     (map sim_sharpe (simulations mc))
                     (sharpe (historical data))
                     (label (historical data)) (n_simulations mc)))])).
Proof.
  intros Hmc Hs. unfold plot_mc_distribution. rewrite Hmc.
  destruct (simulations mc) as [|s t]; [congruence|]. reflexivity.
Qed.

(** X4.  With at least one simulation, [plot_mc_distribution] saves
    [mc_distributions.png]: each of the three histograms holds one
    sample per simulation, in the order of the simulations, and the
    reference lines sit at the historical TWRR, maximum drawdown and
    Sharpe ratio; the title shows [n_simulations] as stored, which
    need not be the number of simulations drawn. *)
Theorem mc_distribution_figure (data : backtest) (mc : monte_carlo_t)
    (out_dir : path) (w : world) :
  monte_carlo data = Some mc ->
  simulations mc <> [] ->
  exists fig,
    plot_mc_distribution data out_dir w =
      (Ok tt,
       mkWorld
         (stdout w ++
            [TextPath "  Saved " (PathJoin out_dir "mc_distributions.png")])
         (files w ++ [(PathJoin out_dir "mc_distributions.png", FigMc fig)]))
    /\ List.length (mf_twrrs fig) = List.length (simulations mc)
    /\ List.length (mf_dds fig) = List.length (simulations mc)
    /\ List.length (mf_sharpes fig) = List.length (simulations mc)
    /\ (forall i s, nth_error (simulations mc) i = Some s ->
          nth_error (mf_twrrs fig) i = Some (sim_twrr_pct s) /\
          nth_error (mf_dds fig) i = Some (sim_max_drawdown_pct s) /\
          nth_error (mf_sharpes fig) i = Some (sim_sharpe s))
    /\ mf_twrr_line fig = twrr_pct (historical data)
    /\ mf_dd_line fig = max_drawdown_pct (historical data)
    /\ mf_sharpe_line fig = sharpe (historical data)
    /\ mf_n_simulations fig = n_simulations mc.
Proof.
  intros Hmc Hs. eexists. split.
  - apply (@plot_mc_distribution_saves data mc out_dir w Hmc Hs).
  - cbn. rewrite !length_map. repeat split; try reflexivity;
      now apply map_nth_error.
Qed.

Lemma mc_distribution_figure_witness :
  exists fig,
    plot_mc_distribution Samples.with_mc (PathOf "out") empty_world =
      (Ok tt,
       mkWorld
         ([] ++ [TextPath "  Saved "
                   (PathJoin (PathOf "out") "mc_distributions.png")])
         ([] ++ [(PathJoin (PathOf "out") "mc_distributions.png", FigMc fig)]))
    /\ List.length (mf_twrrs fig) = 4%nat
    /\ mf_twrr_line fig = 12.34
    /\ mf_n_simulations fig = 3%Z.
Proof.
  destruct (@mc_distribution_figure Samples.with_mc
              (mkMonteCarlo 3 (match monte_carlo Samples.with_mc with
                               | Some mc => simulations mc
                               | None => []
                               end))
              (PathOf "out") empty_world eq_refl
              ltac:(discriminate))
    as (fig & H & L & _ & _ & _ & T & _ & _ & N).
  exists fig. repeat split; assumption.
Defined.

(** X5.  Once the backtest file is loaded, the data alone decide how
    [main] ends: a timestamp of the history that is no date raises
    the error of [datetime.fromtimestamp], which is a [ValueError], an
    [OSError] or an [OverflowError]; otherwise an empty history raises
    [IndexError]; otherwise a first value of zero raises
    [ZeroDivisionError]; and in every other case [main] returns
    normally (writing a file is taken to succeed). *)
Theorem main_outcome (load_data : string -> result backtest)
    (prog json : string) (rest : list string) (data : backtest) (w : world) :
  load_data json = Ok data ->
  let traj := trajectory (historical data) in
  fst (main load_data (prog :: json :: rest) w) =
    match ts_to_dates (map timestamp traj) with
    | Raise e => Raise e
    | Ok _ =>
        match traj with
        | [] => Raise IndexError
        | p0 :: _ =>
            if Qeq_bool (tvl p0) 0 then Raise ZeroDivisionError else Ok tt
        end
    end
  /\ (forall e, ts_to_dates (map timestamp traj) = Raise e ->
       e = ValueError \/ e = OSError \/ e = OverflowError).
Proof.
  intros Hload. cbv zeta. split; [|intros e; apply ts_to_dates_error].
  rewrite (@main_runs load_data prog json rest data w Hload). cbv zeta.
  set (out_dir := match rest with
                  | [] => PathParent (PathOf json)
                  | d :: _ => PathOf d
                  end).
  destruct (ts_to_dates (map timestamp (trajectory (historical data))))
    as [dates|e] eqn:Hd.
  - destruct (trajectory (historical data)) as [|p0 tl] eqn:Ht.
    + unfold bind at 1. now rewrite plot_trajectory_empty.
    + rewrite <- Ht in Hd.
      destruct (Qeq_bool (tvl p0) 0) eqn:Hz.
      * apply Qeq_bool_iff in Hz. unfold bind at 1.
        now rewrite (@plot_trajectory_zero data out_dir w p0 tl dates Ht Hd Hz).
      * assert (Hnz : ~ tvl p0 == 0).
        { intros H. apply Qeq_bool_iff in H. congruence. }
        destruct (@plot_trajectory_ok data out_dir w p0 tl dates Ht Hd Hnz)
          as (tfig & Hrun & _).
        unfold bind at 1. rewrite Hrun.
        unfold bind at 1. rewrite plot_pnl_breakdown_ok.
        unfold bind at 1.
        destruct (monte_carlo data) as [mc|] eqn:Hmc.
        -- destruct (simulations mc) as [|s ss] eqn:Hs.
           ++ now rewrite (@plot_mc_distribution_skips data)
                by (rewrite Hmc; exact Hs).
           ++ now rewrite (@plot_mc_distribution_saves data mc)
                by (try exact Hmc; rewrite Hs; discriminate).
        -- now rewrite (@plot_mc_distribution_skips data) by (now rewrite Hmc).
  - unfold bind at 1.
    now rewrite (@plot_trajectory_bad_date data out_dir w e Hd).
Qed.

Lemma main_outcome_witness :
  fst (main (fun _ => Ok Samples.far_future)
            ["plot_backtest.py"; "r.json"]%string empty_world)
  = Raise ValueError.
Proof.
  destruct (@main_outcome (fun _ => Ok Samples.far_future)
              "plot_backtest.py" "r.json" [] Samples.far_future empty_world
              eq_refl) as [H _].
  exact H.
Defined.



Lemma ratio_gt_1 (f i : Q) : 0 < i -> (0 < (f / i - 1) * 100 <-> i < f).
Proof.
  intros Hi.
  assert (E : f / i * i == f) by (field; lra).
  pose proof (Qmult_lt_r 1 (f / i) i Hi) as Hlt.
  rewrite E in Hlt.
  split; intros H.
  - assert (H1 : 1 < f / i) by lra. apply Hlt in H1. lra.
  - assert (H1 : 1 * i < f) by lra. apply Hlt in H1. lra.
Qed.

Lemma ratio_gt_1_neg (f i : Q) : i < 0 -> (0 < (f / i - 1) * 100 <-> f < i).
Proof.
  intros Hi.
  assert (E : f / i == (- f) / (- i)) by (field; lra).
  rewrite E. rewrite ratio_gt_1 by lra. lra.
Qed.

Lemma last_cons_default {A} (y x : A) (t : list A) :
  last (y :: t) x = last t y.
Proof.
  revert y x; induction t as [|z t IH]; intros y x; [reflexivity|].
  change (last (y :: z :: t) x) with (last (z :: t) x).
  now rewrite (IH z x), (IH z y).
Qed.

Lemma last_map_cons {A B} (f : A -> B) (x : A) (l : list A) (d : B) :
  last (map f (x :: l)) d = f (last l x).
Proof.
  revert x; induction l as [|y t IH]; intros x; [reflexivity|].
  change (last (map f (x :: y :: t)) d) with (last (map f (y :: t)) d).
  now rewrite IH, last_cons_default.
Qed.

(** X7.  Whenever [plot_trajectory] returns, it has saved one
    figure, whose annotated return compares the last value of the
    history with the first.  From a positive first value the return
    is positive exactly when the last value is larger; from a negative
    first value the sign is reversed: it is positive exactly when the
    last value is smaller. *)
Theorem plot_trajectory_return_sign (data : backtest) (out_dir : path)
    (w w' : world) :
  plot_trajectory data out_dir w = (Ok tt, w') ->
  exists p0 tl fig,
    trajectory (historical data) = p0 :: tl
    /\ files w' =
         files w ++ [(PathJoin out_dir "trajectory.png", FigTrajectory fig)]
    /\ tf_final_tvl fig = tvl (last tl p0)
    /\ (0 < tvl p0 -> (0 < tf_pnl_pct fig <-> tvl p0 < tf_final_tvl fig))
    /\ (tvl p0 < 0 -> (0 < tf_pnl_pct fig <-> tf_final_tvl fig < tvl p0)).
Proof.
  intros Hrun.
  destruct (ts_to_dates (map timestamp (trajectory (historical data))))
    as [dates|e] eqn:Hd;
    [|rewrite (@plot_trajectory_bad_date data out_dir w e Hd) in Hrun;
      discriminate Hrun].
  destruct (trajectory (historical data)) as [|p0 tl] eqn:Ht;
    [rewrite plot_trajectory_empty in Hrun by assumption; discriminate Hrun|].
  rewrite <- Ht in Hd.
  destruct (Qeq_dec (tvl p0) 0) as [Hz|Hnz];
    [rewrite (@plot_trajectory_zero data out_dir w p0 tl dates Ht Hd Hz) in Hrun;
     discriminate Hrun|].
  destruct (@plot_trajectory_ok data out_dir w p0 tl dates Ht Hd Hnz)
    as (fig & Hok & _ & Hfinal & Hpct).
  rewrite Hok in Hrun. injection Hrun as <-.
  exists p0, tl, fig. split; [reflexivity|]. split; [reflexivity|]. split.
  - rewrite Hfinal, Ht. apply last_map_cons.
  - rewrite Hpct. split; intros H.
    + now apply ratio_gt_1.
    + now apply ratio_gt_1_neg.
Qed.

Lemma plot_trajectory_return_sign_witness :
  exists p0 tl fig,
    trajectory (historical Samples.plain) = p0 :: tl
    /\ tf_final_tvl fig = tvl (last tl p0)
    /\ (0 < tvl p0 -> (0 < tf_pnl_pct fig <-> tvl p0 < tf_final_tvl fig)).
Proof.
  destruct (@plot_trajectory_return_sign Samples.plain (PathOf "out")
              empty_world _ ltac:(vm_compute; reflexivity))
    as (p0 & tl & fig & Ht & _ & Hf & Hpos & _).
  exists p0, tl, fig. repeat split; try assumption; now apply Hpos.
Defined.

(** X8.  Every bar of the PnL chart is green when its value is zero
    or more and red when it is negative, with its label 5 above a
    non-negative value and 15 below a negative one; as swap costs are
    drawn negated, their bar is red exactly when the stored cost is
    positive. *)
Theorem pnl_bar_colors (hist : historical_t) :
  Forall
    (fun b =>
       (0 <= bar_value b ->
        bar_color b = "#2ecc71"%string /\ bar_text_y b = bar_value b + 5) /\
       (bar_value b < 0 ->
        bar_color b = "#e74c3c"%string /\ bar_text_y b = bar_value b + - (15)))
    (pnl_bars hist)
  /\ (forall b, In b (pnl_bars hist) -> bar_category b = "Swap Costs"%string ->
        (bar_color b = "#e74c3c"%string <-> 0 < swap_costs hist)).
Proof.
  assert (Hc : forall v,
    (0 <= v -> pnl_color v = "#2ecc71"%string /\ ge0 v = true) /\
    (v < 0 -> pnl_color v = "#e74c3c"%string /\ ge0 v = false)).
  { intros v. unfold pnl_color, ge0. destruct (Qle_bool 0 v) eqn:E.
    - apply Qle_bool_iff in E. split; [auto | intros; lra].
    - split; [|auto]. intros H. apply Qle_bool_iff in H. congruence. }
  split.
  - unfold pnl_bars, pnl_values, categories. cbn [map combine Np.zip_with].
    repeat (apply Forall_cons;
            [cbn [bar_value bar_color bar_text_y]; split; intros H;
             apply Hc in H; destruct H as [-> ->]; split; reflexivity|]).
    apply Forall_nil.
  - intros b Hb Hcat.
    unfold pnl_bars, pnl_values, categories in Hb.
    cbn [map combine Np.zip_with In] in Hb.
    destruct Hb as [<-|[<-|[<-|[<-|[<-|[<-|[]]]]]]]; cbn in Hcat;
      try discriminate Hcat.
    cbn [bar_color]. clear Hcat.
    destruct (Qlt_le_dec 0 (swap_costs hist)) as [Hpos|Hneg].
    + assert (H : - swap_costs hist < 0) by lra.
      apply Hc in H. destruct H as [-> _]. tauto.
    + assert (H : 0 <= - swap_costs hist) by lra.
      apply Hc in H. destruct H as [-> _].
      split; [discriminate | intros; lra].
Qed.

Lemma firstn_qualifies {A} (n : nat) (l l' : list A) :
  firstn n l = firstn n l' ->
  (n <=? List.length l)%nat = (n <=? List.length l')%nat.
Proof.
  intros E. apply (f_equal (@List.length A)) in E.
  rewrite !length_firstn in E.
  destruct (n <=? List.length l)%nat eqn:E1, (n <=? List.length l')%nat eqn:E2;
    try reflexivity.
  - apply Nat.leb_le in E1. apply Nat.leb_gt in E2. lia.
  - apply Nat.leb_gt in E1. apply Nat.leb_le in E2. lia.
Qed.

(** X21.  The bands read at most as many ticks of a simulation as the
    history has: two sets of simulations that agree, one by one, on
    these first ticks give the same bands, whatever follows in their
    trajectories. *)
Theorem mc_bands_ignore_later_ticks (data data' : backtest)
    (mc mc' : monte_carlo_t) (tvls : list Q) :
  monte_carlo data = Some mc ->
  monte_carlo data' = Some mc' ->
  Forall2
    (fun s s' =>
       firstn (List.length tvls) (get_trajectory s) =
       firstn (List.length tvls) (get_trajectory s'))
    (simulations mc) (simulations mc') ->
  mc_bands data tvls = mc_bands data' tvls.
Proof.
  intros Hmc Hmc' Hall. unfold mc_bands. rewrite Hmc, Hmc'.
  assert (Ht : truthy (simulations mc) = truthy (simulations mc'))
    by (destruct Hall; reflexivity).
  assert (Hm : sim_matrix (simulations mc) (List.length tvls) =
               sim_matrix (simulations mc') (List.length tvls)).
  { rewrite !sim_matrix_filter. clear Ht.
    induction Hall as [|s s' l l' Hs _ IH]; [reflexivity|].
    cbn [filter]. rewrite (@firstn_qualifies _ _ _ _ Hs).
    destruct (List.length tvls <=? List.length (get_trajectory s'))%nat;
      [|exact IH].
    cbn [map]. now rewrite Hs, IH. }
  now rewrite Ht, Hm.
Qed.

Lemma mc_bands_ignore_later_ticks_witness :
  mc_bands Samples.with_mc [1000; 1010; 1020] =
  mc_bands
    (mkBacktest (historical Samples.with_mc)
       (Some (mkMonteCarlo 3
          [ mkSimulation
              (Some [mkPoint 0 1000; mkPoint 1 1100; mkPoint 2 900]) 1 2 3;
            mkSimulation (Some [mkPoint 0 1000; mkPoint 1 1200]) 4 5 6;
            mkSimulation (Some []) 7 8 9;
            mkSimulation
              (Some [mkPoint 0 1000; mkPoint 1 1300; mkPoint 2 1100;
                     mkPoint 9 1]) 1 1 1 ])))
    [1000; 1010; 1020].
Proof.
  eapply mc_bands_ignore_later_ticks; [reflexivity | reflexivity |].
  repeat constructor.
Defined.

End BacktestExtras.

(** ** Allocation pipeline: further properties *)

Module AllocationExtras.
Import PyFacts PlotAllocations Stacked AllocationFacts AllocationClaims Terms.


Lemma dict_find_None {V} (d : dict key V) (k : key) :
  ~ In k (keys d) -> dict_find key_eqb d k = None.
Proof.
  induction d as [|[k' v'] t IH]; cbn; [reflexivity|].
  intros H. destruct (key_eqb k' k) eqn:E.
  - apply key_eqb_eq in E. subst. tauto.
  - apply IH. tauto.
Qed.

Lemma keys_dict_set_In {V} (d : dict key V) (k x : key) (v : V) :
  In x (keys (dict_set key_eqb d k v)) <-> In x (keys d) \/ x = k.
Proof.
  rewrite keys_dict_set.
  destruct (contains key_eqb (keys d) k) eqn:E.
  - apply contains_In in E. split; [auto|]. intros [H| ->]; assumption.
  - rewrite in_app_iff. cbn. intuition.
Qed.

Lemma keys_fold_set_In {A V} (f : A -> key) (g : A -> V) (l : list A)
    (d : dict key V) (x : key) :
  In x (keys (fold_left (fun d a => dict_set key_eqb d (f a) (g a)) l d)) ->
  In x (keys d) \/ exists a, In a l /\ x = f a.
Proof.
  revert d; induction l as [|a t IH]; intros d; cbn [fold_left]; [auto|].
  intros H. apply IH in H. destruct H as [H|(b & Hb & ->)].
  - apply keys_dict_set_In in H. destruct H as [H| ->]; [auto|].
    right. exists a. split; [now left | reflexivity].
  - right. exists b. split; [now right | reflexivity].
Qed.

Lemma skipn_In {A} (n : nat) (l : list A) (a : A) :
  In a (skipn n l) -> In a l.
Proof.
  intros H. rewrite <- (firstn_skipn n l). apply in_or_app. now right.
Qed.

(** A row only has columns named in the header (and possibly the
    surplus column [None]). *)
Lemma keys_reader_row_header (fieldnames line : list string) (k : string) :
  In (Some k) (keys (reader_row fieldnames line)) -> In k fieldnames.
Proof.
  unfold reader_row.
  remember (fold_left
              (fun d kv => dict_set key_eqb d (Some (fst kv)) (CStr (snd kv)))
              (combine fieldnames line) []) as d0 eqn:Ed0.
  assert (H0 : In (Some k) (keys d0) -> In k fieldnames).
  { rewrite Ed0. intros H.
    apply (keys_fold_set_In (fun kv : string * string => Some (fst kv))
             (fun kv => CStr (snd kv))) in H.
    destruct H as [[]|([a b] & Hab & [= ->])].
    now apply in_combine_l in Hab. }
  destruct (List.length fieldnames <? List.length line)%nat.
  - intros H. apply keys_dict_set_In in H. destruct H as [H|H]; [auto | discriminate].
  - destruct (List.length line <? List.length fieldnames)%nat; [|exact H0].
    intros H.
    apply (keys_fold_set_In (fun k : string => Some k) (fun _ => CNone)) in H.
    destruct H as [H|(a & Ha & [= ->])]; [auto|].
    eapply skipn_In; eassumption.
Qed.

Lemma find_fold_set_other {A V} (f : A -> key) (g : A -> V) (l : list A)
    (d : dict key V) (k : key) :
  (forall a, In a l -> f a <> k) ->
  dict_find key_eqb (fold_left (fun d a => dict_set key_eqb d (f a) (g a)) l d) k
  = dict_find key_eqb d k.
Proof.
  revert d; induction l as [|a t IH]; intros d Hk; cbn [fold_left]; [reflexivity|].
  rewrite IH by (intros b Hb; apply Hk; now right).
  rewrite dict_find_set.
  destruct (key_eqb (f a) k) eqn:E; [|reflexivity].
  apply key_eqb_eq in E. exfalso. apply (Hk a); [now left | exact E].
Qed.

Lemma find_fold_set_in {A V} (f : A -> key) (g : A -> V) (l : list A)
    (d : dict key V) (a : A) :
  NoDup (map f l) -> In a l ->
  dict_find key_eqb (fold_left (fun d a => dict_set key_eqb d (f a) (g a)) l d)
            (f a)
  = Some (g a).
Proof.
  revert d; induction l as [|b t IH]; intros d Hnd Ha; [destruct Ha|].
  cbn [map] in Hnd. inversion Hnd as [|? ? Hb Ht]; subst.
  cbn [fold_left]. destruct Ha as [->|Ha].
  - rewrite find_fold_set_other.
    + rewrite dict_find_set. now rewrite key_eqb_refl.
    + intros c Hc E. apply Hb. rewrite <- E. now apply in_map.
  - now apply IH.
Qed.

Lemma keys_fold_set_fresh {A V} (f : A -> key) (g : A -> V) (l : list A)
    (d : dict key V) :
  NoDup (keys d ++ map f l) ->
  keys (fold_left (fun d a => dict_set key_eqb d (f a) (g a)) l d)
  = keys d ++ map f l.
Proof.
  revert d; induction l as [|a t IH]; intros d Hnd; cbn [fold_left map].
  - now rewrite app_nil_r.
  - assert (Hfresh : contains key_eqb (keys d) (f a) = false).
    { apply contains_false. intros Hin.
      apply NoDup_remove_2 in Hnd. apply Hnd.
      apply in_or_app. now left. }
    assert (Hk : keys (dict_set key_eqb d (f a) (g a)) = keys d ++ [f a])
      by (rewrite keys_dict_set; now rewrite Hfresh).
    rewrite IH; rewrite Hk, <- app_assoc; [reflexivity | exact Hnd].
Qed.

Lemma map_fst_combine {A B} (la : list A) (lb : list B) :
  List.length la = List.length lb -> map fst (combine la lb) = la.
Proof.
  revert lb; induction la as [|a t IH]; intros [|b u]; cbn; try discriminate;
    [reflexivity|].
  intros [= H]. now rewrite IH.
Qed.

Lemma combine_nth_error {A B} (la : list A) (lb : list B) (i : nat) (a : A) (b : B) :
  nth_error la i = Some a -> nth_error lb i = Some b ->
  In (a, b) (combine la lb).
Proof.
  revert lb i; induction la as [|x t IH]; intros [|y u] [|i]; cbn;
    try discriminate.
  - intros [= ->] [= ->]. now left.
  - intros Ha Hb. right. eapply IH; eassumption.
Qed.

(** X9.  A data line with as many fields as a header without repeated
    names is read back intact: the row has exactly the header's
    columns, in header order, and looking a column up gives the field
    at the same position of the line. *)
Theorem reader_row_round_trip (fieldnames line : list string) :
  NoDup fieldnames ->
  List.length line = List.length fieldnames ->
  keys (reader_row fieldnames line) = map (@Some string) fieldnames /\
  forall i k v,
    nth_error fieldnames i = Some k ->
    nth_error line i = Some v ->
    column_of (reader_row fieldnames line) (Some k) = Ok (CStr v).
Proof.
  intros Hnd Hlen. unfold reader_row.
  rewrite Hlen, Nat.ltb_irrefl.
  assert (Hfst : map (fun kv : string * string => Some (fst kv))
                     (combine fieldnames line) = map (@Some string) fieldnames).
  { rewrite <- (map_map fst (@Some string)).
    now rewrite map_fst_combine by (symmetry; exact Hlen). }
  assert (Hnd' : NoDup (map (fun kv : string * string => Some (fst kv))
                             (combine fieldnames line)))
    by (rewrite Hfst; now apply NoDup_map_Some).
  split.
  - rewrite (keys_fold_set_fresh (fun kv : string * string => Some (fst kv))
               (fun kv => CStr (snd kv))); [exact Hfst | exact Hnd'].
  - intros i k v Hk Hv. unfold column_of, dict_getitem.
    pose proof (combine_nth_error _ _ _ Hk Hv) as Hin.
    match goal with
    | |- context [dict_find ?e ?d ?x] =>
        assert (Hf : dict_find e d x = Some (CStr v))
          by exact (@find_fold_set_in _ _
                      (fun kv : string * string => Some (fst kv))
                      (fun kv => CStr (snd kv))
                      (combine fieldnames line) [] (k, v) Hnd' Hin);
        rewrite Hf
    end.
    reflexivity.
Qed.

Lemma reader_row_round_trip_witness :
  keys (reader_row Samples.header
          ["100"; "1000"; "400"; "100"; "300"; "200"]%string)
    = map (@Some string) Samples.header /\
  column_of (reader_row Samples.header
               ["100"; "1000"; "400"; "100"; "300"; "200"]%string)
            (Some "pendle"%string) = Ok (CStr "100").
Proof.
  destruct (@reader_row_round_trip Samples.header
              ["100"; "1000"; "400"; "100"; "300"; "200"]%string) as [Hk Hv].
  - unfold Samples.header. repeat constructor; cbn; intuition discriminate.
  - reflexivity.
  - split; [exact Hk|]. apply (Hv 3%nat); reflexivity.
Defined.

Lemma find_fold_none (l : list string) (d : row) (k : string) :
  In k l ->
  dict_find key_eqb
    (fold_left (fun d k => dict_set key_eqb d (Some k) CNone) l d) (Some k)
  = Some CNone.
Proof.
  revert d; induction l as [|a t IH]; intros d Hk; [destruct Hk|].
  cbn [fold_left].
  destruct (in_dec string_dec k t) as [Hin|Hout]; [now apply IH|].
  destruct Hk as [->|Hk]; [|contradiction].
  rewrite (find_fold_set_other (fun k : string => Some k) (fun _ => CNone)).
  - rewrite dict_find_set. now rewrite key_eqb_refl.
  - intros b Hb [= ->]. contradiction.
Qed.

Section Rows.
Variable float_of_str : string -> option Q.
Variable int_of_str : string -> option Z.

(** X10.  On a data line shorter than the header, the columns the
    line does not reach hold [None]; reading such a column as a number
    raises [TypeError], for [float] as for [int]. *)
Theorem reader_row_short_line (fieldnames line : list string)
    (i : nat) (k : string) :
  (List.length line < List.length fieldnames)%nat ->
  nth_error fieldnames i = Some k ->
  (List.length line <= i)%nat ->
  column_of (reader_row fieldnames line) (Some k) = Ok CNone /\
  float_at float_of_str (Some k) (reader_row fieldnames line) = Raise TypeError /\
  (c <~ column_of (reader_row fieldnames line) (Some k) ;; int_ int_of_str c)
    = Raise TypeError.
Proof.
  intros Hshort Hk Hi.
  assert (Hcol : column_of (reader_row fieldnames line) (Some k) = Ok CNone).
  { unfold column_of, dict_getitem, reader_row.
    assert (H1 : (List.length fieldnames <? List.length line)%nat = false)
      by (apply Nat.ltb_ge; lia).
    assert (H2 : (List.length line <? List.length fieldnames)%nat = true)
      by (apply Nat.ltb_lt; lia).
    rewrite H1, H2.
    rewrite find_fold_none; [reflexivity|].
    apply nth_error_In with (n := (i - List.length line)%nat).
    rewrite nth_error_skipn.
    replace (List.length line + (i - List.length line))%nat with i by lia.
    exact Hk. }
  unfold float_at. rewrite Hcol. repeat split.
Qed.
End Rows.

Lemma reader_row_short_line_witness :
  column_of (reader_row Samples.header ["100"; "1000"; "400"]%string)
            (Some "buy_eth"%string) = Ok CNone /\
  float_at Samples.float_of_decimal (Some "buy_eth"%string)
           (reader_row Samples.header ["100"; "1000"; "400"]%string)
    = Raise TypeError.
Proof.
  destruct (@reader_row_short_line Samples.float_of_decimal
              Samples.int_of_decimal Samples.header
              ["100"; "1000"; "400"]%string 4 "buy_eth"%string) as (H1 & H2 & _).
  - cbn. lia.
  - reflexivity.
  - cbn. lia.
  - split; assumption.
Defined.

Lemma raises_only_rbind {A B} (P : exn -> Prop) (r : result A)
    (k : A -> result B) :
  raises_only P r ->
  (forall a, r = Ok a -> raises_only P (k a)) ->
  raises_only P (rbind r k).
Proof.
  intros Hr Hk. destruct r as [a|e]; cbn; [now apply Hk | exact Hr].
Qed.

Lemma raises_only_comprehension {A B} (P : exn -> Prop) (f : A -> result B)
    (l : list A) :
  (forall x, In x l -> raises_only P (f x)) ->
  raises_only P (comprehension f l).
Proof.
  induction l as [|x t IH]; intros H; cbn; [exact I|].
  apply raises_only_rbind; [apply H; now left|].
  intros y _. apply raises_only_rbind; [|intros; exact I].
  apply IH. intros z Hz. apply H. now right.
Qed.

Lemma raises_only_for_each {A S} (P : exn -> Prop) (body : S -> A -> result S)
    (l : list A) (s : S) :
  (forall s x, In x l -> raises_only P (body s x)) ->
  raises_only P (for_each body l s).
Proof.
  revert s; induction l as [|x t IH]; intros s H; cbn; [exact I|].
  apply raises_only_rbind; [apply H; now left|].
  intros s' _. apply IH. intros s0 z Hz. apply H. now right.
Qed.

Lemma getitem_nonempty {A} (l : list A) (i : Z) :
  l <> [] -> (i = 0%Z \/ i = (-1)%Z) -> exists x, getitem l i = Ok x.
Proof.
  intros Hl [->| ->].
  - destruct l as [|x t]; [congruence|]. exists x. apply getitem_first.
  - destruct l as [|x t]; [congruence|].
    exists (last (x :: t) x). now apply getitem_last.
Qed.

Section Errors.
Variable read_csv : string -> result csv_file.
Variable float_of_str : string -> option Q.
Variable int_of_str : string -> option Z.

Lemma raises_column_of (r : row) (col : key) :
  raises_only (derivation_error read_csv) (column_of r col).
Proof.
  unfold column_of, dict_getitem. destruct (dict_find key_eqb r col); cbn;
    [exact I | left; reflexivity].
Qed.

Lemma raises_float_ (c : cell) :
  raises_only (derivation_error read_csv) (float_ float_of_str c).
Proof.
  unfold derivation_error. destruct c as [s| |l]; cbn; auto.
  destruct (float_of_str s); cbn; auto.
Qed.

Lemma raises_int_ (c : cell) :
  raises_only (derivation_error read_csv) (int_ int_of_str c).
Proof.
  unfold derivation_error. destruct c as [s| |l]; cbn; auto.
  destruct (int_of_str s); cbn; auto.
Qed.

Lemma raises_fromtimestamp (t : Z) :
  raises_only (derivation_error read_csv) (fromtimestamp t).
Proof.
  unfold fromtimestamp.
  destruct (datetime_fromtimestamp t) as [d|e] eqn:E; cbn; [exact I|].
  apply datetime_fromtimestamp_error in E. unfold derivation_error.
  destruct E as [->|[->| ->]]; auto 6.
Qed.

Lemma raises_load_prices (csv : option string) (price_col : string)
    (lo hi : Z) :
  raises_only (derivation_error read_csv)
    (load_prices read_csv float_of_str int_of_str csv price_col lo hi).
Proof.
  unfold load_prices. destruct csv as [path|]; [|exact I].
  destruct (String.eqb path ""); [exact I|].
  apply raises_only_rbind.
  - unfold load_csv. destruct (read_csv path) as [f|e] eqn:E; cbn; [exact I|].
    do 5 right. now exists path.
  - intros rows _. apply raises_only_for_each. intros st r _.
    apply raises_only_rbind; [apply raises_column_of|]. intros c _.
    apply raises_only_rbind; [apply raises_int_|]. intros t _.
    destruct ((lo <=? t)%Z && (t <=? hi)%Z); [|exact I].
    apply raises_only_rbind; [apply raises_fromtimestamp|]. intros d _.
    apply raises_only_rbind; [apply raises_column_of|]. intros p _.
    apply raises_only_rbind; [apply raises_float_|]. intros v _. exact I.
Qed.

Lemma raises_stack (series : list Q -> list Q) (vd : dict key (list Q))
    (cols : list key) (n : nat) :
  raises_only (derivation_error read_csv) (stack series vd cols n).
Proof.
  unfold stack. apply raises_only_for_each. intros [b ls] col _.
  unfold stack_step, dict_getitem.
  destruct (dict_find key_eqb vd col); cbn; [exact I | left; reflexivity].
Qed.

Lemma raises_pnl_pct_of (f i : Q) :
  raises_only (derivation_error read_csv) (pnl_pct_of f i).
Proof.
  destruct (Qlt_le_dec 0 i) as [H|H].
  - now rewrite (proj2 (pnl_pct_of_guarded f i) H).
  - now rewrite (proj1 (pnl_pct_of_guarded f i) H).
Qed.

Lemma raises_plot_figure (ticks : list row) (spot_csv perp_csv : option string)
    (title : option string) :
  ticks <> [] ->
  raises_only (derivation_error read_csv)
    (plot_figure read_csv float_of_str int_of_str ticks spot_csv perp_csv title).
Proof.
  intros Hne. unfold plot_figure.
  apply raises_only_rbind.
  { apply raises_only_comprehension. intros r _.
    apply raises_only_rbind; [apply raises_column_of|]. intros c _.
    unfold ts_to_dt. apply raises_only_rbind; [apply raises_int_|].
    intros t _. apply raises_fromtimestamp. }
  intros timestamps Hts.
  apply raises_only_rbind.
  { apply raises_only_comprehension. intros r _.
    apply raises_only_rbind; [apply raises_column_of|]. intros c _.
    apply raises_float_. }
  intros tvl Htvl.
  destruct (getitem_nonempty (i := 0) Hne (or_introl eq_refl)) as [row0 H0].
  rewrite H0. cbn [rbind].
  apply raises_only_rbind.
  { unfold venue_data_of. apply raises_only_for_each. intros vd col _.
    apply raises_only_rbind; [|intros; exact I].
    apply raises_only_comprehension. intros r _.
    apply raises_only_rbind; [apply raises_column_of|]. intros c _.
    apply raises_float_. }
  intros vd _.
  apply raises_only_rbind.
  { apply raises_only_comprehension. intros r _.
    apply raises_only_rbind; [apply raises_column_of|]. intros c _.
    apply raises_int_. }
  intros tick_ts Htt.
  assert (Htne : tick_ts <> []).
  { intros E. apply comprehension_length in Htt. rewrite E in Htt.
    destruct ticks; [congruence | discriminate Htt]. }
  destruct tick_ts as [|t0 ts]; [congruence|]. cbn [list_min list_max rbind].
  apply raises_only_rbind; [apply raises_load_prices|]. intros spot _.
  apply raises_only_rbind; [apply raises_load_prices|]. intros perp _.
  cbv zeta.
  apply raises_only_rbind; [apply raises_stack|]. intros values _.
  assert (Hvne : tvl <> []).
  { intros E. apply comprehension_length in Htvl. rewrite E in Htvl.
    destruct ticks; [congruence | discriminate Htvl]. }
  destruct (getitem_nonempty (i := -1) Hvne (or_intror eq_refl)) as [fin Hf].
  destruct (getitem_nonempty (i := 0) Hvne (or_introl eq_refl)) as [ini Hi].
  rewrite Hf, Hi. cbn [rbind].
  apply raises_only_rbind; [apply raises_pnl_pct_of|]. intros pct _.
  apply raises_only_rbind; [apply raises_stack|]. intros pcts _. exact I.
Qed.

Lemma raises_plot (tick_csv : string) (spot_csv perp_csv : option string)
    (output : string) (title : option string) (w : world) :
  raises_only (derivation_error read_csv)
    (fst (plot read_csv float_of_str int_of_str tick_csv spot_csv perp_csv
               output title w)).
Proof.
  unfold plot, bind, lift, load_csv.
  destruct (read_csv tick_csv) as [f|e] eqn:Hread; cbn [rbind].
  - destruct (dict_reader f) as [|r0 rs] eqn:Hrows; cbn [truthy negb];
      [exact I|].
    pose proof (@raises_plot_figure (r0 :: rs) spot_csv perp_csv title
                  ltac:(discriminate)) as Hp.
    destruct (plot_figure read_csv float_of_str int_of_str (r0 :: rs)
                          spot_csv perp_csv title) as [fig|e];
      [exact I | exact Hp].
  - cbn. do 5 right. now exists tick_csv.
Qed.

(** X11.  Whatever the tick file and the price feeds hold, [plot]
    raises neither [ZeroDivisionError] nor [IndexError], as long as
    reading the files does not: the division of the annotated return
    is guarded, the percentages are divided by a floored TVL, and the
    first and the last TVL are read only once the ticks are known not
    to be empty. *)
Theorem plot_never_divides_by_zero (tick_csv : string)
    (spot_csv perp_csv : option string) (output : string)
    (title : option string) (w : world) :
  (forall p, read_csv p <> Raise ZeroDivisionError /\
             read_csv p <> Raise IndexError) ->
  fst (plot read_csv float_of_str int_of_str tick_csv spot_csv perp_csv
            output title w) <> Raise ZeroDivisionError /\
  fst (plot read_csv float_of_str int_of_str tick_csv spot_csv perp_csv
            output title w) <> Raise IndexError.
Proof.
  intros Hread.
  pose proof (raises_plot tick_csv spot_csv perp_csv output title w) as H.
  split; intros E; rewrite E in H; cbn in H;
    destruct H as [H|[H|[H|[H|[H|[p H]]]]]]; try discriminate H;
    destruct (Hread p) as [H1 H2]; contradiction.
Qed.
End Errors.

Lemma column_of_missing (fieldnames line : list string) (k : string) :
  ~ In k fieldnames ->
  column_of (reader_row fieldnames line) (Some k) = Raise KeyError.
Proof.
  intros Hk. unfold column_of, dict_getitem.
  rewrite dict_find_None; [reflexivity|].
  intros H. now apply keys_reader_row_header in H.
Qed.

Lemma dict_reader_rows (fieldnames : list string) (lines : list (list string))
    (r : row) :
  In r (dict_reader (fieldnames :: lines)) ->
  exists line, r = reader_row fieldnames line.
Proof.
  cbn [dict_reader]. rewrite in_map_iff. intros (line & <- & _). now exists line.
Qed.

Section MissingColumns.
Variable read_csv : string -> result csv_file.
Variable float_of_str : string -> option Q.
Variable int_of_str : string -> option Z.

(** X12.  A tick file with at least one data line whose header has no
    [timestamp] column makes [plot] raise [KeyError]; one whose header
    has no [tvl] column makes it raise as well.  Either way nothing is
    printed or saved. *)
Theorem plot_missing_column (tick_csv : string) (fieldnames : list string)
    (lines : list (list string)) (spot_csv perp_csv : option string)
    (output : string) (title : option string) (w : world) :
  read_csv tick_csv = Ok (fieldnames :: lines) ->
  (exists line, In line lines /\ line <> []) ->
  (~ In "timestamp"%string fieldnames ->
   plot read_csv float_of_str int_of_str tick_csv spot_csv perp_csv
        output title w = (Raise KeyError, w)) /\
  (~ In "tvl"%string fieldnames ->
   exists e,
     plot read_csv float_of_str int_of_str tick_csv spot_csv perp_csv
          output title w = (Raise e, w)).
Proof.
  intros Hread (line & Hin & Hne).
  assert (Hrows : exists l0 rs,
            dict_reader (fieldnames :: lines) = reader_row fieldnames l0 :: rs).
  { cbn [dict_reader].
    destruct (filter (@truthy string) lines) as [|l0 ls] eqn:Hf.
    - exfalso. assert (Hx : In line (filter (@truthy string) lines)).
      { apply filter_In. split; [exact Hin|]. destruct line; [congruence | reflexivity]. }
      rewrite Hf in Hx. destruct Hx.
    - exists l0, (map (reader_row fieldnames) ls). reflexivity. }
  destruct Hrows as (l0 & rs & Hrows).
  unfold plot, bind, lift, load_csv. rewrite Hread. cbn [rbind].
  rewrite Hrows. cbn [truthy negb].
  split; intros Hmiss.
  - unfold plot_figure. cbn [comprehension].
    rewrite (@column_of_missing fieldnames l0 _ Hmiss). reflexivity.
  - unfold plot_figure.
    destruct (comprehension _ (reader_row fieldnames l0 :: rs)) as [ts|e];
      cbn [rbind].
    + cbn [comprehension]. rewrite (@column_of_missing fieldnames l0 _ Hmiss). cbn [rbind].
      now exists KeyError.
    + now exists e.
Qed.
End MissingColumns.

Lemma plot_missing_column_witness :
  plot (fun _ => Ok [["time"; "tvl"]; ["1"; "2"]]%string)
       Samples.float_of_decimal Samples.int_of_decimal
       "ticks.csv" None None "out.png" None empty_world
  = (Raise KeyError, empty_world).
Proof.
  apply (@plot_missing_column (fun _ => Ok [["time"; "tvl"]; ["1"; "2"]]%string)
           Samples.float_of_decimal Samples.int_of_decimal
           "ticks.csv" ["time"; "tvl"]%string [["1"; "2"]%string]
           None None "out.png" None empty_world eq_refl).
  - exists ["1"; "2"]%string. split; [now left | discriminate].
  - cbn. intuition discriminate.
Defined.


Lemma fold_min_spec (l : list Z) (x : Z) :
  let m := fold_left Z.min l x in
  In m (x :: l) /\ forall y, In y (x :: l) -> (m <= y)%Z.
Proof.
  revert x; induction l as [|a t IH]; intros x; cbn [fold_left].
  - split; [now left|]. intros y [<-|[]]. lia.
  - destruct (IH (Z.min x a)) as [Hin Hle]. split.
    + destruct Hin as [E|Hin]; [|right; now right].
      rewrite <- E. destruct (Z.min_spec x a) as [[_ ->]|[_ ->]];
        [now left | right; now left].
    + intros y [<-|[<-|Hy]].
      * specialize (Hle (Z.min x a) (or_introl eq_refl)). lia.
      * specialize (Hle (Z.min x a) (or_introl eq_refl)). lia.
      * apply Hle. now right.
Qed.

Lemma fold_max_spec (l : list Z) (x : Z) :
  let m := fold_left Z.max l x in
  In m (x :: l) /\ forall y, In y (x :: l) -> (y <= m)%Z.
Proof.
  revert x; induction l as [|a t IH]; intros x; cbn [fold_left].
  - split; [now left|]. intros y [<-|[]]. lia.
  - destruct (IH (Z.max x a)) as [Hin Hle]. split.
    + destruct Hin as [E|Hin]; [|right; now right].
      rewrite <- E. destruct (Z.max_spec x a) as [[_ ->]|[_ ->]];
        [right; now left | now left].
    + intros y [<-|[<-|Hy]].
      * specialize (Hle (Z.max x a) (or_introl eq_refl)). lia.
      * specialize (Hle (Z.max x a) (or_introl eq_refl)). lia.
      * apply Hle. now right.
Qed.

Lemma for_each_invariant {A S} (Inv : S -> Prop) (body : S -> A -> result S)
    (l : list A) (s s' : S) :
  (forall s x s', Inv s -> body s x = Ok s' -> Inv s') ->
  Inv s -> for_each body l s = Ok s' -> Inv s'.
Proof.
  intros Hstep. revert s; induction l as [|x t IH]; intros s Hs; cbn.
  - now intros [= <-].
  - destruct (body s x) as [s1|e] eqn:E; cbn; [|discriminate].
    apply IH. eapply Hstep; eassumption.
Qed.

Section Prices.
Variable read_csv : string -> result csv_file.
Variable float_of_str : string -> option Q.
Variable int_of_str : string -> option Z.

(** A price feed keeps as many prices as timestamps, all of them
    within the given span. *)
Lemma load_prices_in_span (csv : option string) (price_col : string)
    (lo hi : Z) (ts : list datetime) (ps : list Q) :
  load_prices read_csv float_of_str int_of_str csv price_col lo hi = Ok (ts, ps) ->
  List.length ts = List.length ps /\
  Forall (fun t => (lo <= t <= hi)%Z) ts.
Proof.
  unfold load_prices.
  destruct csv as [path|]; [|intros [= <- <-]; split; [reflexivity | constructor]].
  destruct (String.eqb path "");
    [intros [= <- <-]; split; [reflexivity | constructor]|].
  destruct (load_csv read_csv path) as [rows|e]; cbn [rbind]; [|discriminate].
  intros Hrun.
  apply (for_each_invariant
           (fun st : list datetime * list Q =>
              List.length (fst st) = List.length (snd st) /\
              Forall (fun t => (lo <= t <= hi)%Z) (fst st))) in Hrun.
  - exact Hrun.
  - intros st r st' [Hl Hf].
    destruct (column_of r (Some "timestamp"%string)) as [c|e]; cbn [rbind];
      [|discriminate].
    destruct (int_ int_of_str c) as [t|e]; cbn [rbind]; [|discriminate].
    destruct ((lo <=? t)%Z && (t <=? hi)%Z) eqn:Hin.
    + destruct (fromtimestamp t) as [d|e] eqn:Hd; cbn [rbind];
        [|discriminate].
      apply datetime_fromtimestamp_ok in Hd. subst d.
      destruct (column_of r (Some price_col)) as [p|e]; cbn [rbind];
        [|discriminate].
      destruct (float_ float_of_str p) as [v|e]; cbn [rbind]; [|discriminate].
      intros [= <-]. cbn [fst snd].
      apply andb_prop in Hin. destruct Hin as [H1 H2].
      apply Z.leb_le in H1, H2.
      split.
      * rewrite !length_app, Hl. reflexivity.
      * apply Forall_app. split; [exact Hf|].
        constructor; [|constructor]. lia.
    + intros [= <-]. now split.
  - cbn. split; [reflexivity | constructor].
Qed.

Ltac step H :=
  match type of H with
  | rbind ?r _ = Ok _ =>
      let E := fresh "E" in
      destruct r eqn:E; cbn [rbind] in H; [|discriminate H]
  end.

(** The first half of a successful run of [plot_figure]: the time
    axis, the tick span and the two price feeds. *)
Lemma plot_figure_feeds (ticks : list row) (spot_csv perp_csv : option string)
    (title : option string) (fig : alloc_fig) :
  plot_figure read_csv float_of_str int_of_str ticks spot_csv perp_csv title
    = Ok fig ->
  exists tick_ts ts_min ts_max,
    comprehension
      (fun r => c <~ column_of r (Some "timestamp"%string) ;; ts_to_dt int_of_str c)
      ticks = Ok (af_timestamps fig) /\
    comprehension
      (fun r => c <~ column_of r (Some "timestamp"%string) ;; int_ int_of_str c)
      ticks = Ok tick_ts /\
    list_min tick_ts = Ok ts_min /\
    list_max tick_ts = Ok ts_max /\
    load_prices read_csv float_of_str int_of_str spot_csv "price" ts_min ts_max
      = Ok (af_spot fig) /\
    load_prices read_csv float_of_str int_of_str perp_csv "mark_price"
                ts_min ts_max = Ok (af_perp fig).
Proof.
  unfold plot_figure. intros H.
  step H. step H. step H. step H. step H. step H. step H. step H. step H.
  cbv zeta in H.
  step H. step H. step H. step H. step H.
  injection H as <-. cbn [af_timestamps af_spot af_perp].
  do 3 eexists. repeat split; eassumption.
Qed.

(** X13.  The reference prices drawn in the first panel are cut to
    the span of the ticks: every price point kept, spot or perp, has a
    timestamp between the earliest and the latest tick timestamp, both
    of which are timestamps of ticks, and each feed keeps as many
    prices as timestamps.  A feed that is not given contributes
    nothing. *)
Theorem prices_within_tick_span (ticks : list row)
    (spot_csv perp_csv : option string) (title : option string)
    (fig : alloc_fig) :
  plot_figure read_csv float_of_str int_of_str ticks spot_csv perp_csv title
    = Ok fig ->
  exists ts_min ts_max,
    In ts_min (af_timestamps fig) /\ In ts_max (af_timestamps fig) /\
    Forall (fun t => (ts_min <= t <= ts_max)%Z) (af_timestamps fig) /\
    Forall (fun t => (ts_min <= t <= ts_max)%Z) (fst (af_spot fig)) /\
    Forall (fun t => (ts_min <= t <= ts_max)%Z) (fst (af_perp fig)) /\
    List.length (fst (af_spot fig)) = List.length (snd (af_spot fig)) /\
    List.length (fst (af_perp fig)) = List.length (snd (af_perp fig)) /\
    (spot_csv = None -> af_spot fig = ([], [])) /\
    (perp_csv = None -> af_perp fig = ([], [])).
Proof.
  intros Hrun.
  destruct (plot_figure_feeds _ _ _ _ Hrun)
    as (tick_ts & lo & hi & Hts & Htt & Hmin & Hmax & Hspot & Hperp).
  assert (Heq : af_timestamps fig = tick_ts).
  { unfold ts_to_dt in Hts.
    assert (E : forall l r1 r2,
      comprehension
        (fun r => c <~ column_of r (Some "timestamp"%string) ;;
                  (t <~ int_ int_of_str c ;; fromtimestamp t)) l = Ok r1 ->
      comprehension
        (fun r => c <~ column_of r (Some "timestamp"%string) ;; int_ int_of_str c)
        l = Ok r2 -> r1 = r2).
    { induction l as [|r t IH]; intros r1 r2; cbn.
      - now intros [= <-] [= <-].
      - destruct (column_of r (Some "timestamp"%string)) as [c|e]; cbn;
          [|discriminate].
        destruct (int_ int_of_str c) as [z|e]; cbn; [|discriminate].
        destruct (fromtimestamp z) as [d|e] eqn:Hd; cbn; [|discriminate].
        apply datetime_fromtimestamp_ok in Hd. subst d.
        destruct (comprehension _ t) as [a|e]; cbn; [|discriminate].
        destruct (comprehension _ t) as [b|e]; cbn; [|discriminate].
        intros [= <-] [= <-]. f_equal. now apply IH. }
    exact (E ticks _ _ Hts Htt). }
  rewrite Heq.
  destruct tick_ts as [|t0 ts]; [discriminate Hmin|].
  cbn [list_min list_max] in Hmin, Hmax.
  injection Hmin as <-. injection Hmax as <-.
  destruct (fold_min_spec ts t0) as [Hin_lo Hlo].
  destruct (fold_max_spec ts t0) as [Hin_hi Hhi].
  destruct (af_spot fig) as [sts sps] eqn:Es.
  destruct (af_perp fig) as [pts pps] eqn:Ep.
  destruct (load_prices_in_span _ _ _ _ Hspot) as [Hls Hfs].
  destruct (load_prices_in_span _ _ _ _ Hperp) as [Hlp Hfp].
  exists (fold_left Z.min ts t0), (fold_left Z.max ts t0). cbn [fst snd].
  repeat split; try assumption.
  - apply Forall_forall. intros t Ht. split; [now apply Hlo | now apply Hhi].
  - intros ->. cbn in Hspot. congruence.
  - intros ->. cbn in Hperp. congruence.
Qed.
End Prices.


Lemma prices_within_tick_span_witness :
  exists fig,
    plot_figure fs_with_spot Samples.float_of_decimal Samples.int_of_decimal
      (dict_reader Samples.ticks_file) (Some "spot.csv"%string) None None
      = Ok fig /\
    af_spot fig = ([150; 300]%Z, [2000; 2100]) /\
    exists ts_min ts_max,
      In ts_min (af_timestamps fig) /\ In ts_max (af_timestamps fig) /\
      Forall (fun t => (ts_min <= t <= ts_max)%Z) (fst (af_spot fig)).
Proof.
  eexists. split; [vm_compute; reflexivity|].
  split; [vm_compute; reflexivity|].
  destruct (@prices_within_tick_span fs_with_spot Samples.float_of_decimal
              Samples.int_of_decimal (dict_reader Samples.ticks_file)
              (Some "spot.csv"%string) None None _
              ltac:(vm_compute; reflexivity))
    as (lo & hi & H1 & H2 & _ & H3 & _).
  exists lo, hi. repeat split; assumption.
Defined.

Lemma venue_cols_has (row0 : row) (k : string) :
  k <> "timestamp"%string -> k <> "tvl"%string ->
  (contains key_eqb (venue_cols_of row0) (Some k) = true
   <-> In (Some k) (keys row0)).
Proof.
  intros H1 H2. rewrite contains_In. unfold venue_cols_of. rewrite filter_In.
  cbn [contains existsb key_eqb].
  assert (E1 : String.eqb k "timestamp" = false) by now apply String.eqb_neq.
  assert (E2 : String.eqb k "tvl" = false) by now apply String.eqb_neq.
  rewrite E1, E2. cbn. tauto.
Qed.

Section Figure.
Variable read_csv : string -> result csv_file.
Variable float_of_str : string -> option Q.
Variable int_of_str : string -> option Z.

(** X14.  The title of the figure: a title given by the caller is
    used as it is; otherwise a header with a [lend_eth] column gives
    the v2 title, whether or not [buy_eth] is there too, a header with
    [buy_eth] and no [lend_eth] the v1 title, and any other header the
    generic title. *)
Theorem figure_title (ticks : list row) (spot_csv perp_csv : option string)
    (title : option string) (fig : alloc_fig) :
  plot_figure read_csv float_of_str int_of_str ticks spot_csv perp_csv title
    = Ok fig ->
  exists row0 rest,
    ticks = row0 :: rest /\
    (forall t, title = Some t -> af_title fig = t) /\
    (title = None -> In (Some "lend_eth"%string) (keys row0) ->
     af_title fig =
       "v2: ETH Lending + Short Perp + USDC Lending  (group-aware rebalance)"%string) /\
    (title = None -> ~ In (Some "lend_eth"%string) (keys row0) ->
     In (Some "buy_eth"%string) (keys row0) ->
     af_title fig =
       "v1: Spot ETH + Short Perp + USDC Lending  (group-aware rebalance)"%string) /\
    (title = None -> ~ In (Some "lend_eth"%string) (keys row0) ->
     ~ In (Some "buy_eth"%string) (keys row0) ->
     af_title fig = "Backtest Allocations"%string).
Proof.
  intros Hrun.
  destruct (plot_figure_inv _ _ _ _ _ _ _ Hrun)
    as (row0 & rest & _ & _ & _ & _ & Ht & _ & _ & _ & _ & Htitle & _).
  exists row0, rest. split; [exact Ht|].
  rewrite Htitle. unfold auto_title.
  pose proof (@venue_cols_has row0 "lend_eth"
                ltac:(discriminate) ltac:(discriminate)) as Hl.
  pose proof (@venue_cols_has row0 "buy_eth"
                ltac:(discriminate) ltac:(discriminate)) as Hb.
  repeat split.
  - now intros t ->.
  - intros -> Hin. apply Hl in Hin. now rewrite Hin.
  - intros -> Hno Hin.
    destruct (contains key_eqb (venue_cols_of row0) (Some "lend_eth"%string));
      [exfalso; apply Hno, Hl; reflexivity|].
    apply Hb in Hin. now rewrite Hin.
  - intros -> Hno1 Hno2.
    destruct (contains key_eqb (venue_cols_of row0) (Some "lend_eth"%string));
      [exfalso; apply Hno1, Hl; reflexivity|].
    destruct (contains key_eqb (venue_cols_of row0) (Some "buy_eth"%string));
      [exfalso; apply Hno2, Hb; reflexivity|].
    reflexivity.
Qed.
End Figure.

Lemma figure_title_witness :
  exists fig,
    plot_figure Samples.fs Samples.float_of_decimal Samples.int_of_decimal
      (dict_reader Samples.ticks_file) None None None = Ok fig /\
    af_title fig =
      "v1: Spot ETH + Short Perp + USDC Lending  (group-aware rebalance)"%string.
Proof.
  eexists. split; [vm_compute; reflexivity|].
  destruct (@figure_title Samples.fs Samples.float_of_decimal
              Samples.int_of_decimal (dict_reader Samples.ticks_file)
              None None None _ ltac:(vm_compute; reflexivity))
    as (row0 & rest & Ht & _ & _ & H & _).
  injection Ht as <- _.
  apply H; [reflexivity | | ].
  - vm_compute. intuition discriminate.
  - vm_compute. tauto.
Defined.

Lemma stack_step_chained (series : list Q -> list Q)
    (venue_data : dict key (list Q)) (cols : list key) :
  forall b0 ls0 b ls,
  for_each (stack_step series venue_data) cols (b0, ls0) = Ok (b, ls) ->
  exists new, ls = ls0 ++ new /\ chained b0 new.
Proof.
  induction cols as [|col t IH]; intros b0 ls0 b ls; cbn.
  - intros [= <- <-]. exists []. rewrite app_nil_r. split; [reflexivity | exact I].
  - unfold dict_getitem.
    destruct (dict_find key_eqb venue_data col) as [vals|]; cbn; [|discriminate].
    intros Hrun. apply IH in Hrun. destruct Hrun as (new & -> & Hch).
    eexists (_ :: new). rewrite <- app_assoc. split; [reflexivity|].
    cbn. split; [reflexivity | exact Hch].
Qed.

(** The top of a chained stack is its base plus the sum of its
    layers. *)
Lemma chained_top (layers : list layer) (b : list Q) (i : nat) (d : layer) :
  layers <> [] -> chained b layers ->
  nth i (ly_top (last layers d)) 0 == nth i b 0 + total layers i.
Proof.
  revert b; induction layers as [|ly t IH]; intros b Hne Hall;
    [congruence|].
  destruct Hall as [Hb Hch].
  destruct t as [|ly' t'].
  - cbn. unfold thickness. rewrite Hb. ring.
  - change (last (ly :: ly' :: t') d) with (last (ly' :: t') d).
    rewrite (IH (ly_top ly)) by (try discriminate; exact Hch).
    change (total (ly :: ly' :: t') i)
      with (thickness ly i + total (ly' :: t') i).
    unfold thickness. rewrite Hb. ring.
Qed.

Lemma zeros_nth (n i : nat) : nth i (Np.zeros n) 0 = 0.
Proof.
  unfold Np.zeros. destruct (Nat.lt_ge_cases i n) as [H|H].
  - now apply nth_repeat_lt.
  - apply nth_overflow. now rewrite repeat_length.
Qed.

Section Stacks.
Variable read_csv : string -> result csv_file.
Variable float_of_str : string -> option Q.
Variable int_of_str : string -> option Z.

(** X15.  Both stacked panels are gapless: the first layer rests on
    zero and every other layer on the top of the layer before it, so
    at every tick the top of the last layer is the sum of what the
    venues contribute, values in panel 2 and percentages in panel 3. *)
Theorem stacks_are_gapless (ticks : list row)
    (spot_csv perp_csv : option string) (title : option string)
    (fig : alloc_fig) :
  plot_figure read_csv float_of_str int_of_str ticks spot_csv perp_csv title
    = Ok fig ->
  chained (Np.zeros (List.length ticks)) (af_values fig) /\
  chained (Np.zeros (List.length ticks)) (af_pcts fig) /\
  (forall i d, af_values fig <> [] ->
     nth i (ly_top (last (af_values fig) d)) 0 == total (af_values fig) i) /\
  (forall i d, af_pcts fig <> [] ->
     nth i (ly_top (last (af_pcts fig) d)) 0 == total (af_pcts fig) i).
Proof.
  intros Hrun.
  destruct (plot_figure_inv _ _ _ _ _ _ _ Hrun)
    as (row0 & rest & vd & b2 & b3 & ini & _ & _ & _ & H2 & H3 & _).
  unfold stack in H2, H3.
  apply stack_step_chained in H2, H3.
  destruct H2 as (n2 & E2 & C2). destruct H3 as (n3 & E3 & C3).
  cbn [app] in E2, E3. subst n2 n3.
  repeat split; try assumption.
  - intros i d Hne. rewrite (@chained_top _ _ i d Hne C2), zeros_nth. ring.
  - intros i d Hne. rewrite (@chained_top _ _ i d Hne C3), zeros_nth. ring.
Qed.
End Stacks.

Lemma stacks_are_gapless_witness :
  exists fig,
    plot_figure Samples.fs Samples.float_of_decimal Samples.int_of_decimal
      (dict_reader Samples.ticks_file) None None None = Ok fig /\
    chained (Np.zeros 3) (af_values fig) /\
    chained (Np.zeros 3) (af_pcts fig).
Proof.
  eexists. split; [vm_compute; reflexivity|].
  destruct (@stacks_are_gapless Samples.fs Samples.float_of_decimal
              Samples.int_of_decimal (dict_reader Samples.ticks_file)
              None None None _ ltac:(vm_compute; reflexivity))
    as (H1 & H2 & _).
  split; [exact H1 | exact H2].
Defined.

Lemma Forall2_length_eq {A B} (R : A -> B -> Prop) (la : list A) (lb : list B) :
  Forall2 R la lb -> List.length la = List.length lb.
Proof. induction 1; cbn; congruence. Qed.

Lemma Forall2_right {A B} (R : A -> B -> Prop) (Q' : B -> Prop)
    (la : list A) (lb : list B) :
  Forall2 R la lb -> (forall a b, R a b -> Q' b) -> Forall Q' lb.
Proof. induction 1; intros H'; constructor; eauto. Qed.

Section Shape.
Variable read_csv : string -> result csv_file.
Variable float_of_str : string -> option Q.
Variable int_of_str : string -> option Z.

(** X16.  Every series of the figure has one entry per tick: the
    time axis, the TVL line, and the bottom and the top of every
    layer of both stacked panels.  For the rows of a tick file each
    panel has one layer per venue column, that is per column of the
    first row other than [timestamp] and [tvl]. *)
Theorem figure_shape (f : csv_file) (spot_csv perp_csv : option string)
    (title : option string) (fig : alloc_fig) :
  plot_figure read_csv float_of_str int_of_str (dict_reader f)
              spot_csv perp_csv title = Ok fig ->
  let n := List.length (dict_reader f) in
  List.length (af_timestamps fig) = n /\
  List.length (af_tvl fig) = n /\
  Forall (fun ly => List.length (ly_bottom ly) = n /\ List.length (ly_top ly) = n)
         (af_values fig ++ af_pcts fig) /\
  exists row0 rest,
    dict_reader f = row0 :: rest /\
    List.length (af_values fig) = List.length (venue_cols_of row0) /\
    List.length (af_pcts fig) = List.length (venue_cols_of row0).
Proof.
  intros Hrun n.
  destruct (plot_figure_feeds _ _ _ _ _ _ _ Hrun)
    as (_ & _ & _ & Hts & _).
  destruct (plot_figure_inv _ _ _ _ _ _ _ Hrun)
    as (row0 & rest & vd & b2 & b3 & ini & Ht & Htvl & Hvd & H2 & H3 & _).
  pose proof (comprehension_length _ _ Htvl) as Ltvl.
  pose proof (comprehension_length _ _ Hts) as Lts.
  assert (Lvals : forall col vals,
            dict_find key_eqb vd col = Some vals -> List.length vals = n).
  { intros col vals Hf. eapply venue_data_entry_length; eassumption. }
  apply stack_layers in H2; [|exact Lvals].
  apply stack_layers in H3;
    [|intros col vals Hf;
      now rewrite pcts_of_length, Ltvl, (Lvals _ _ Hf), Nat.min_id].
  assert (Hlen : List.length (venue_cols_ordered_of (venue_cols_of row0))
                 = List.length (venue_cols_of row0)).
  { apply Permutation_length, venue_cols_ordered_perm, NoDup_venue_cols.
    apply (@NoDup_keys_dict_reader f). rewrite Ht. now left. }
  split; [exact Lts|]. split; [exact Ltvl|]. split.
  - apply Forall_app. split.
    + eapply Forall2_right; [exact H2|]. cbv beta.
      intros col ly (vals & Hf & _ & _ & Hb & Htop). split; [exact Hb|].
      rewrite Htop. unfold Np.add.
      now rewrite zip_with_length, Hb, (Lvals _ _ Hf), Nat.min_id.
    + eapply Forall2_right; [exact H3|]. cbv beta.
      intros col ly (vals & Hf & _ & _ & Hb & Htop). split; [exact Hb|].
      rewrite Htop. unfold Np.add.
      now rewrite zip_with_length, Hb, pcts_of_length, Ltvl, (Lvals _ _ Hf),
        !Nat.min_id.
  - exists row0, rest. split; [exact Ht|].
    rewrite <- (Forall2_length_eq H2), <- (Forall2_length_eq H3).
    split; exact Hlen.
Qed.


End Shape.

Lemma figure_shape_witness :
  exists fig,
    plot_figure Samples.fs Samples.float_of_decimal Samples.int_of_decimal
      (dict_reader Samples.ticks_file) None None None = Ok fig /\
    List.length (af_timestamps fig) = 3%nat /\
    List.length (af_tvl fig) = 3%nat /\
    List.length (af_values fig) = 4%nat /\
    List.length (af_pcts fig) = 4%nat.
Proof.
  eexists. split; [vm_compute; reflexivity|].
  destruct (@figure_shape Samples.fs Samples.float_of_decimal
              Samples.int_of_decimal Samples.ticks_file None None None _
              ltac:(vm_compute; reflexivity))
    as (H1 & H2 & _ & row0 & rest & Ht & H3 & H4).
  injection Ht as <- _.
  repeat split; assumption.
Defined.



Section Return.
Variable read_csv : string -> result csv_file.
Variable float_of_str : string -> option Q.
Variable int_of_str : string -> option Z.

(** X19.  The return annotated on the value panel compares the last
    TVL with the first.  From a first TVL that is zero or negative it
    is 0, without any division; from a positive first TVL it is
    [(final / initial - 1) * 100], positive exactly when the last TVL
    is larger than the first. *)
Theorem figure_return (ticks : list row)
    (spot_csv perp_csv : option string) (title : option string)
    (fig : alloc_fig) :
  plot_figure read_csv float_of_str int_of_str ticks spot_csv perp_csv title
    = Ok fig ->
  exists initial_tvl,
    getitem (af_tvl fig) 0 = Ok initial_tvl /\
    getitem (af_tvl fig) (-1) = Ok (af_final_tvl fig) /\
    (initial_tvl <= 0 -> af_pnl_pct fig = 0) /\
    (0 < initial_tvl ->
     af_pnl_pct fig = (af_final_tvl fig / initial_tvl - 1) * 100 /\
     (0 < af_pnl_pct fig <-> initial_tvl < af_final_tvl fig)).
Proof.
  intros Hrun.
  destruct (plot_figure_inv _ _ _ _ _ _ _ Hrun)
    as (_ & _ & _ & _ & _ & ini & _ & _ & _ & _ & _ & _ & Hl & Hf & Hp).
  exists ini. split; [exact Hf|]. split; [exact Hl|]. split.
  - intros H. apply (pnl_pct_of_guarded (af_final_tvl fig)) in H. congruence.
  - intros H.
    assert (E : af_pnl_pct fig = (af_final_tvl fig / ini - 1) * 100).
    { apply (pnl_pct_of_guarded (af_final_tvl fig)) in H. congruence. }
    split; [exact E|]. rewrite E.
    rewrite <- (scaled_gt_100 (af_final_tvl fig) H). split; intros; lra.
Qed.
End Return.

Lemma figure_return_witness :
  exists fig,
    plot_figure Samples.fs Samples.float_of_decimal Samples.int_of_decimal
      (dict_reader zero_ticks_file) None None None = Ok fig /\
    getitem (af_tvl fig) 0 = Ok 0 /\
    af_pnl_pct fig = 0.
Proof.
  eexists. split; [vm_compute; reflexivity|].
  split; [vm_compute; reflexivity|].
  destruct (@figure_return Samples.fs Samples.float_of_decimal
              Samples.int_of_decimal (dict_reader zero_ticks_file)
              None None None _ ltac:(vm_compute; reflexivity))
    as (ini & H1 & _ & H0 & _).
  apply H0. vm_compute in H1. injection H1 as <-. discriminate.
Defined.

Lemma for_each_raises {A S} (body : S -> A -> result S) (l : list A) (x : A) :
  In x l -> (forall s, exists e, body s x = Raise e) ->
  forall s, exists e, for_each body l s = Raise e.
Proof.
  intros Hin Hx. induction l as [|a t IH]; [destruct Hin|]. intros s. cbn.
  destruct (body s a) as [s'|e] eqn:E; cbn.
  - destruct Hin as [->|Hin]; [|now apply IH].
    destruct (Hx s) as [e He]. congruence.
  - now exists e.
Qed.

Section Ragged.
Variable read_csv : string -> result csv_file.
Variable float_of_str : string -> option Q.
Variable int_of_str : string -> option Z.

(** X20.  A first data line with more fields than the header is
    rejected: its surplus fields are kept as a list under the column
    [None], which counts as a venue column and cannot be read as a
    number, so no figure is derived. *)
Theorem long_first_line_rejected (fieldnames line : list string)
    (rest : list row) (spot_csv perp_csv : option string)
    (title : option string) :
  (List.length fieldnames < List.length line)%nat ->
  column_of (reader_row fieldnames line) None
    = Ok (CList (skipn (List.length fieldnames) line)) /\
  In None (venue_cols_of (reader_row fieldnames line)) /\
  exists e,
    plot_figure read_csv float_of_str int_of_str
                (reader_row fieldnames line :: rest) spot_csv perp_csv title
    = Raise e.
Proof.
  intros Hlong.
  assert (Hlt : (List.length fieldnames <? List.length line)%nat = true)
    by now apply Nat.ltb_lt.
  assert (Hcol : column_of (reader_row fieldnames line) None
                 = Ok (CList (skipn (List.length fieldnames) line))).
  { unfold column_of, dict_getitem, reader_row. rewrite Hlt.
    rewrite dict_find_set. reflexivity. }
  assert (Hin : In None (venue_cols_of (reader_row fieldnames line))).
  { unfold venue_cols_of. apply filter_In. split; [|reflexivity].
    unfold reader_row. rewrite Hlt. apply keys_dict_set_In. now right. }
  split; [exact Hcol|]. split; [exact Hin|].
  unfold plot_figure.
  destruct (comprehension _ (reader_row fieldnames line :: rest)) as [ts|e];
    cbn [rbind]; [|now exists e].
  destruct (comprehension _ (reader_row fieldnames line :: rest)) as [tvl|e];
    cbn [rbind]; [|now exists e].
  rewrite getitem_first. cbn [rbind].
  unfold venue_data_of.
  match goal with
  | |- context [for_each ?body ?cols ?s0] =>
      destruct (@for_each_raises _ _ body cols None Hin) with (s := s0)
        as [e He]
  end.
  - intros s. exists TypeError. cbn [comprehension]. rewrite Hcol. reflexivity.
  - rewrite He. now exists e.
Qed.
End Ragged.

Lemma long_first_line_rejected_witness :
  exists e,
    plot_figure Samples.fs Samples.float_of_decimal Samples.int_of_decimal
      (reader_row ["timestamp"; "tvl"; "buy_eth"]%string
                  ["100"; "10"; "10"; "7"]%string :: [])
      None None None = Raise e.
Proof.
  destruct (@long_first_line_rejected Samples.fs Samples.float_of_decimal
              Samples.int_of_decimal ["timestamp"; "tvl"; "buy_eth"]%string
              ["100"; "10"; "10"; "7"]%string [] None None None)
    as (_ & _ & H).
  - cbn. lia.
  - exact H.
Defined.

End AllocationExtras.
